(** * Clawdbot documentation site: configuration, prebuilt homepage
      modules and theme entry point

    A shallow embedding of [docs/.vitepress/config.mts] (the site
    configuration object, the two prebuilt homepage render modules and
    the theme entry point) together with the properties the
    specification states about them, and of code the guide documents
    in [docs/guide/security.md] and [docs/en/guide/memory.md]
    (authorization, authentication, sandbox command validation, the
    two level cache, security monitoring, the resource manager and
    context compression) with properties read off that code. *)

From Stdlib Require Import String Ascii List Bool ZArith QArith.
From stdpp Require Import base strings list gmap pretty sorting.

Local Open Scope string_scope.

(** ** Strings *)

(** JavaScript's [s.startsWith(p)]. *)
Definition startsWith (s p : string) : bool := String.prefix p s.

(** JavaScript's [s.endsWith(p)]. *)
Fixpoint endsWith (s p : string) : bool :=
  if String.eqb s p then true
  else match s with
       | EmptyString => false
       | String _ s' => endsWith s' p
       end.

(** ** Data model of the configuration object *)

(** An entry of a [nav] bar or of a sidebar section: [{ text, link }]. *)
Record NavItem := mkItem {
  text : string;
  link : string
}.

(** A sidebar section: [{ text, items }]. *)
Record SidebarGroup := mkGroup {
  group_text : string;
  items : list NavItem
}.

(** The per-locale [themeConfig] override.  Only the [en] locale sets
    [siteTitle], the text of [editLink] and the text of
    [lastUpdated]. *)
Record LocaleThemeConfig := mkLocaleTheme {
  locale_siteTitle : option string;
  editLink_text : option string;
  lastUpdated_text : option string;
  nav : list NavItem;
  sidebar : list SidebarGroup
}.

(** An entry of [socialLinks]: [{ icon, link }]. *)
Record SocialLink := mkSocial {
  icon : string;
  social_link : string
}.

(** The site-wide [themeConfig].  [search_translations] holds the
    strings of [search.options.locales.root.translations], each under
    its path. *)
Record ThemeConfig := mkThemeConfig {
  logo : string;
  siteTitle : string;
  socialLinks : list SocialLink;
  footer_message : string;
  footer_copyright : string;
  search_provider : string;
  search_translations : list (string * string);
  editLink_pattern : string;
  editLink_text_default : string
}.

(** A value of the [locales] object.  [locale_link] is the optional
    [link] field (only the [en] locale sets it). *)
Record LocaleConfig := mkLocale {
  label : string;
  lang : string;
  locale_link : option string;
  locale_title : string;
  locale_description : string;
  themeConfig : LocaleThemeConfig
}.

(** An entry of [head]: a tag name and its attribute object, the
    attributes in the order they are written. *)
Record HeadConfig := mkHead {
  tag : string;
  attrs : list (string * string)
}.

Record SitemapConfig := mkSitemap {
  sitemap_hostname : string
}.

(** The object passed to [defineConfig].  [locales] keeps the order of
    the keys of the object literal. *)
Record UserConfig := mkConfig {
  title : string;
  description : string;
  sitemap : SitemapConfig;
  cleanUrls : bool;
  lastUpdated : bool;
  head : list HeadConfig;
  siteThemeConfig : ThemeConfig;
  locales : list (string * LocaleConfig)
}.

(** ** The configuration of [config.mts] *)

Module Config.

(** [const hostname = 'https://clawdbot-guide.com'] *)
Definition hostname : string := "https://clawdbot-guide.com".

(** The address of the repository, written out in the GitHub nav
    entries, in [socialLinks] and at the start of the [editLink]
    pattern. *)
Definition github : string :=
  "https://github.com/nodfe/clawdbot-technical-analysis".

(** [locales.root] *)
Definition root : LocaleConfig :=
  {| label := "简体中文";
     lang := "zh-CN";
     locale_link := None;
     locale_title := "Clawdbot 技术解析";
     locale_description := "Clawdbot 深度技术指南与架构分析";
     themeConfig :=
       {| locale_siteTitle := None;
          editLink_text := None;
          lastUpdated_text := None;
          nav :=
            [ mkItem "首页" "/";
              mkItem "阅读教程" "/guide/intro";
              mkItem "GitHub" github ];
          sidebar :=
            [ {| group_text := "技术深度解析教程";
                 items :=
                   [ mkItem "1. 概述与架构设计" "/guide/intro";
                     mkItem "2. Gateway核心机制" "/guide/gateway";
                     mkItem "3. 多通道系统实现" "/guide/channels";
                     mkItem "4. 代理(Agent)系统" "/guide/agents";
                     mkItem "5. 工具系统与扩展" "/guide/tools";
                     mkItem "6. 技能与插件架构" "/guide/skills";
                     mkItem "7. 内存与状态管理" "/guide/memory";
                     mkItem "8. 模型集成与AI接口" "/guide/models";
                     mkItem "9. 安全模型与权限" "/guide/security";
                     mkItem "10. 部署与最佳实践" "/guide/deployment" ] |} ] |} |}.

(** [locales.en] *)
Definition en : LocaleConfig :=
  {| label := "English";
     lang := "en";
     locale_link := Some "/en/";
     locale_title := "Clawdbot Deep Dive";
     locale_description := "In-depth Technical Guide for Clawdbot";
     themeConfig :=
       {| locale_siteTitle := Some "Clawdbot Deep Dive";
          editLink_text := Some "Edit this page on GitHub";
          lastUpdated_text := Some "Last updated";
          nav :=
            [ mkItem "Home" "/en/";
              mkItem "Read Guide" "/en/guide/intro";
              mkItem "GitHub" github ];
          sidebar :=
            [ {| group_text := "Technical Deep Dive";
                 items :=
                   [ mkItem "1. Overview & Architecture" "/en/guide/intro";
                     mkItem "2. Gateway Mechanism" "/en/guide/gateway";
                     mkItem "3. Multi-Channel System" "/en/guide/channels";
                     mkItem "4. Agent System" "/en/guide/agents";
                     mkItem "5. Tools & Extensions" "/en/guide/tools";
                     mkItem "6. Skills & Plugins" "/en/guide/skills";
                     mkItem "7. Memory Management" "/en/guide/memory";
                     mkItem "8. Model Integration" "/en/guide/models";
                     mkItem "9. Security Model" "/en/guide/security";
                     mkItem "10. Deployment" "/en/guide/deployment" ] |} ] |} |}.

(** The object given to [defineConfig] (the generator's identity
    helper) and exported by default, as a function of the module
    constant [hostname]: the constant occurs in [sitemap.hostname]
    and, through the template literal
    [`${hostname}/pixel-lobster.svg`], in the two image tags of
    [head]. *)
Definition defaultExport (hostname : string) : UserConfig :=
  {| title := "Clawdbot 技术解析";
     description := "Clawdbot 深度技术指南与架构分析";
     sitemap := {| sitemap_hostname := hostname |};
     cleanUrls := true;
     lastUpdated := true;
     head :=
       [ mkHead "link" [("rel", "icon"); ("href", "/pixel-lobster.svg")];
         mkHead "meta" [("name", "theme-color"); ("content", "#bd34fe")];
         mkHead "meta" [("name", "author"); ("content", "Gnod")];
         mkHead "meta" [("property", "og:type"); ("content", "website")];
         mkHead "meta" [("property", "og:image");
                        ("content", hostname +:+ "/pixel-lobster.svg")];
         mkHead "meta" [("name", "twitter:card");
                        ("content", "summary_large_image")];
         mkHead "meta" [("name", "twitter:image");
                        ("content", hostname +:+ "/pixel-lobster.svg")] ];
     siteThemeConfig :=
       {| logo := "/pixel-lobster.svg";
          siteTitle := "Clawdbot 技术解析";
          socialLinks := [ mkSocial "github" github ];
          footer_message :=
            "Created by Gnod. This site is for educational purposes.";
          footer_copyright :=
            "Clawdbot logo and trademarks belong to their respective owners.";
          search_provider := "local";
          search_translations :=
            [ ("button.buttonText", "搜索文档");
              ("button.buttonAriaLabel", "搜索文档");
              ("modal.noResultsText", "无法找到相关结果");
              ("modal.resetButtonTitle", "清除查询条件");
              ("modal.footer.selectText", "选择");
              ("modal.footer.navigateText", "切换");
              ("modal.footer.closeText", "关闭") ];
          editLink_pattern := github +:+ "/edit/main/docs/:path";
          editLink_text_default := "在 GitHub 上编辑此页" |};
     locales := [ ("root", root); ("en", en) ] |}.

(** The configuration the module exports. *)
Definition config : UserConfig := defaultExport hostname.

End Config.

(** ** Reading the configuration *)

(** Value of an attribute of a head entry. *)
Definition attr (k : string) (h : HeadConfig) : option string :=
  snd <$> find (fun kv => String.eqb (fst kv) k) (attrs h).

(** The [content] of the first [meta] entry of [head] whose attribute
    [key] (one of [name], [property]) has the value [v]. *)
Definition metaContent (key v : string) (cfg : UserConfig) : option string :=
  match find (fun h => String.eqb (tag h) "meta" &&
                       bool_decide (attr key h = Some v)) (head cfg) with
  | Some h => attr "content" h
  | None => None
  end.

(** The links of all sidebar entries of a locale, in order. *)
Definition sidebarItems (l : LocaleConfig) : list NavItem :=
  concat (map items (sidebar (themeConfig l))).

Definition sidebarLinks (l : LocaleConfig) : list string :=
  map link (sidebarItems l).


(** The [content] values of the image tags of [head] (the [meta]
    entries whose [property] or [name] ends in [:image]); these are the
    absolute URLs the configuration generates. *)
Definition isImageMeta (h : HeadConfig) : bool :=
  String.eqb (tag h) "meta" &&
  (from_option (fun v => endsWith v ":image") false (attr "property" h) ||
   from_option (fun v => endsWith v ":image") false (attr "name" h)).

Definition metaImageUrls (cfg : UserConfig) : list string :=
  omap (attr "content") (filter (fun h => isImageMeta h = true) (head cfg)).

(** ** Prebuilt homepage modules *)

(** Both modules push one template string to the server renderer.  The
    renderer's [_push] appends to an output buffer, which is passed
    through explicitly; [ssrRenderAttrs] is imported from
    [vue/server-renderer] and is a parameter here.  The arguments the
    body never reads all have the type [Value]. *)
Module EnIndex.
Section Render.

Context {Attrs Value : Type} (ssrRenderAttrs : Attrs -> string).

(** [const _sfc_main = { name: "en/index.md" }] *)
Definition _sfc_main_name : string := "en/index.md".

Definition _sfc_ssrRender (_ctx : Value) (_push : list string)
    (_parent : Value) (_attrs : Attrs)
    (props setup data options : Value) : list string :=
  (_push ++ ["<div" +:+ ssrRenderAttrs _attrs +:+ "></div>"])%list.

End Render.
End EnIndex.

Module Index.
Section Render.

Context {Attrs Value : Type} (ssrRenderAttrs : Attrs -> string).

(** [const _sfc_main = { name: "index.md" }] *)
Definition _sfc_main_name : string := "index.md".

Definition _sfc_ssrRender (_ctx : Value) (_push : list string)
    (_parent : Value) (_attrs : Attrs)
    (props setup data options : Value) : list string :=
  (_push ++ ["<div" +:+ ssrRenderAttrs _attrs +:+ "></div>"])%list.

End Render.
End Index.

(** The double quote character. *)
Definition dquote : string := String "034"%char EmptyString.

(** [escapeHtml] of the renderer: the five characters it replaces. *)
Fixpoint escapeHtml (s : string) : string :=
  match s with
  | EmptyString => EmptyString
  | String c s' =>
      (if Ascii.eqb c "034"%char then "&quot;"
       else if Ascii.eqb c "&"%char then "&amp;"
       else if Ascii.eqb c "039"%char then "&#39;"
       else if Ascii.eqb c "<"%char then "&lt;"
       else if Ascii.eqb c ">"%char then "&gt;"
       else String c EmptyString) +:+ escapeHtml s'
  end.

(** [ssrRenderAttrs] of [vue/server-renderer] on an attribute object
    whose keys are plain attribute names (none of [class], [style],
    [key], [ref], listeners) and whose values are strings: every entry
    becomes a space, the name, and the escaped value in double quotes.
    The library is not part of the repository; this instance is only
    used to run the render functions on concrete attributes. *)
Definition ssrRenderAttrs (_attrs : list (string * string)) : string :=
  fold_left (fun ret kv =>
               ret +:+ " " +:+ fst kv +:+ "=" +:+ dquote +:+
               escapeHtml (snd kv) +:+ dquote)
            _attrs "".

(** ** Theme entry point *)

Module Theme.

(** The state of the Vue application that a theme hook can reach
    through the [app] field of its argument: what [app.component],
    [app.directive], [app.use] and [app.provide] register. *)
Record App := mkApp {
  components : gmap string string;
  directives : gmap string string;
  plugins : list string;
  provides : gmap string string
}.

(** How a call ends: it returns, or it throws. *)
Inductive Completion :=
| Normal
| Throw (msg : string).

Section DefaultExport.

(** [DefaultTheme] of [vitepress/theme] and the component of
    [./Layout.vue] are imports. *)
Context {Component ThemeT : Type}.
Variable DefaultTheme : ThemeT.
Variable LayoutVue : Component.

(** The shape of the exported theme object. *)
Record ThemeExport := mkTheme {
  extends : ThemeT;
  Layout : Component;
  enhanceApp : App -> Completion * App
}.

(** [export default { extends, Layout, enhanceApp({ app }) { } }].
    The hook takes [app] out of its argument; its body holds a comment
    only, so the call returns with the application as it was. *)
Definition theme : ThemeExport :=
  {| extends := DefaultTheme;
     Layout := LayoutVue;
     enhanceApp := fun app => (Normal, app) |}.

End DefaultExport.

End Theme.

(** ** Locale routing *)

(** Modelled from the spec: the locale router is the site generator's
    and is not in the repository.  Section 4.1: the route's leading
    path segment is matched against each locale's non-default prefix
    ([/en/...]); no match implies the default ([root]) locale.  The
    prefix of the locale with key [k] is [/k/]. *)
Definition localePrefix (key : string) : string := "/" +:+ key +:+ "/".

(** Modelled from the spec: a locale other than [root] matches the
    routes that begin with its prefix. *)
Definition matchesLocale (route : string) (kl : string * LocaleConfig) : bool :=
  negb (String.eqb (fst kl) "root") && startsWith route (localePrefix (fst kl)).

(** Modelled from the spec: the key of the locale a route selects. *)
Definition resolveLocaleKey (cfg : UserConfig) (route : string) : string :=
  match find (matchesLocale route) (locales cfg) with
  | Some kl => fst kl
  | None => "root"
  end.

(** Modelled from the spec: the locale descriptor a route selects. *)
Definition resolveLocale (cfg : UserConfig) (route : string) : option LocaleConfig :=
  snd <$> find (fun kl => String.eqb (fst kl) (resolveLocaleKey cfg route))
               (locales cfg).

(** Modelled from the spec: the sidebar rendered for a route is the one
    of the selected locale's [themeConfig]. *)
Definition resolveSidebar (cfg : UserConfig) (route : string) : list SidebarGroup :=
  from_option (fun l => sidebar (themeConfig l)) [] (resolveLocale cfg route).

(** ** Link integrity at build time *)







(** ** Sitemap *)

(** Modelled from the spec: sitemap generation is the site generator's.
    Glossary, "Sitemap hostname": the base URL prefixed onto every page
    path when generating the XML sitemap.  [routes] are the page paths,
    each starting with a slash. *)
Definition sitemapEntries (cfg : UserConfig) (routes : list string) : list string :=
  map (fun r => sitemap_hostname (sitemap cfg) +:+ r) routes.

(** ** Format of the hostname *)

Definition isAlpha (c : ascii) : bool :=
  let n := nat_of_ascii c in
  (65 <=? n)%nat && (n <=? 90)%nat || (97 <=? n)%nat && (n <=? 122)%nat.

Definition isDigit (c : ascii) : bool :=
  let n := nat_of_ascii c in (48 <=? n)%nat && (n <=? 57)%nat.

(** A character of a URI scheme after the first one. *)
Definition isSchemeChar (c : ascii) : bool :=
  isAlpha c || isDigit c || Ascii.eqb c "+"%char || Ascii.eqb c "-"%char ||
  Ascii.eqb c "."%char.

(** A visible ASCII character: no blank, no control character. *)
Definition isUrlChar (c : ascii) : bool :=
  let n := nat_of_ascii c in (33 <=? n)%nat && (n <=? 126)%nat.

Fixpoint allChars (p : ascii -> bool) (s : string) : bool :=
  match s with
  | EmptyString => true
  | String c s' => p c && allChars p s'
  end.

(** Splits [s] at the first [://]: the part before it and the part
    after it. *)
Fixpoint splitScheme (s : string) : option (string * string) :=
  if startsWith s "://" then
    Some ("", match s with
              | String _ (String _ (String _ rest)) => rest
              | _ => ""
              end)
  else match s with
       | EmptyString => None
       | String c s' =>
           match splitScheme s' with
           | Some (sch, rest) => Some (String c sch, rest)
           | None => None
           end
       end.

(** Modelled from the spec: the format check of section 8, item 3, is
    not performed by any code of the repository.  An absolute URL has a
    scheme (a letter, then letters, digits, [+], [-] or [.]), then
    [://], then a non-empty authority that does not begin with a slash;
    all of its characters are visible ASCII. *)
Definition isAbsoluteUrl (s : string) : bool :=
  match splitScheme s with
  | Some (String c sch, rest) =>
      isAlpha c && allChars isSchemeChar sch &&
      negb (String.eqb rest "") && negb (startsWith rest "/") &&
      allChars isUrlChar rest
  | _ => false
  end.

(** Modelled from the spec: a well-formed hostname is an absolute URL
    with no trailing slash. *)
Definition validHostname (s : string) : bool :=
  isAbsoluteUrl s && negb (endsWith s "/").

(** ** The [setup] wrapper of the prebuilt homepage modules *)

(** The server renderer's context, as far as the modules use it: the
    optional [Set] [modules] of rendered module names.  A JavaScript
    [Set] iterates in the order of insertion, so it is kept as the list
    of its members in that order.  What else the context holds is kept
    in [ssr_rest]. *)
Record SSRContext (Rest : Type) := mkSSRContext {
  modules : option (list string);
  ssr_rest : Rest
}.

Arguments mkSSRContext {Rest} _ _.
Arguments modules {Rest} _.
Arguments ssr_rest {Rest} _.

(** [set.add(name)]: a member stays where it is, a new name goes to the
    end. *)
Definition setAdd (name : string) (set : list string) : list string :=
  if bool_decide (name ∈ set) then set else (set ++ [name])%list.

(** [(ssrContext.modules || (ssrContext.modules = new Set())).add(name)]:
    the set is created when the field is absent, then [name] is
    added. *)
Definition registerModule {Rest : Type} (name : string)
    (ssrContext : SSRContext Rest) : SSRContext Rest :=
  {| modules := Some (setAdd name (default [] (modules ssrContext)));
     ssr_rest := ssr_rest ssrContext |}.

(** Both modules replace [_sfc_main.setup] by a function that
    registers the module and then calls the setup the component had
    before, if it had one, handing its result on; [void 0] otherwise.
    [useSSRContext()] yields the context of the running render, which
    is passed through explicitly.  The earlier setup may itself change
    the context. *)
Module SfcSetup.
Section Wrapper.

Context {Props Ctx Rest Ret : Type}.

Definition wrap (name : string)
    (_sfc_setup : option (Props -> Ctx -> SSRContext Rest -> Ret * SSRContext Rest))
    (props : Props) (ctx : Ctx) (ssrContext : SSRContext Rest)
    : option Ret * SSRContext Rest :=
  let ssrContext := registerModule name ssrContext in
  match _sfc_setup with
  | Some f => let (r, ssrContext) := f props ctx ssrContext in (Some r, ssrContext)
  | None => (None, ssrContext)
  end.

(** [const _sfc_setup = _sfc_main.setup] is read off the object
    [{ name }], which has no [setup]: it is [undefined] in both
    modules. *)
Definition _sfc_setup
  : option (Props -> Ctx -> SSRContext Rest -> Ret * SSRContext Rest) := None.

(** [_sfc_main.setup] of the module of [en/index.md]. *)
Definition setup_en : Props -> Ctx -> SSRContext Rest -> option Ret * SSRContext Rest :=
  wrap "en/index.md" _sfc_setup.

(** [_sfc_main.setup] of the module of [index.md]. *)
Definition setup_root : Props -> Ctx -> SSRContext Rest -> option Ret * SSRContext Rest :=
  wrap "index.md" _sfc_setup.

End Wrapper.
End SfcSetup.

(** ** Documented code: context compression ([en/guide/memory.md]) *)

Module Memory.

(** A chat message: [{ role, content }]. *)
Record Message := mkMessage {
  role : string;
  content : string
}.

Section CompressHistory.

(** [tokenCount], [THRESHOLD] and [model.summarize] are used by the
    function and defined nowhere in the document.  The model call
    resolves with a summary or rejects ([None]). *)
Variable tokenCount : list Message -> Z.
Variable THRESHOLD : Z.
Variable summarize : list Message -> option string.

(** [compressHistory].  [history.length / 2] is a fraction for an odd
    length; [slice] truncates it. *)
Definition compressHistory (history : list Message) : option (list Message) :=
  if (THRESHOLD <? tokenCount history)%Z then
    let older := take (length history / 2) history in
    let newer := drop (length history / 2) history in
    match summarize older with
    | Some summary =>
        Some (mkMessage "system" ("Previous conversation summary: " +:+ summary)
              :: newer)
    | None => None
    end
  else Some history.

End CompressHistory.

End Memory.

(** ** Documented code: role based authorization ([guide/security.md]) *)

Module RBAC.

(** [Permission]; [condition] is optional. *)
Record Permission := mkPermission {
  resource : string;
  action : string;
  scope : string;
  condition : option string
}.

Record Role := mkRole {
  role_id : string;
  role_name : string;
  role_permissions : list Permission
}.

(** The three private maps of [RBACAuthorizationSystem]. *)
Record State := mkState {
  roles : gmap string Role;
  userRoles : gmap string (list string);
  permissions : gmap string (list Permission)
}.

(** Whether an optional string counts as true in a JavaScript
    condition: it is present and not empty. *)
Definition truthy (c : option string) : bool :=
  match c with
  | Some s => negb (String.eqb s "")
  | None => false
  end.

Definition evaluateCondition (condition value : string) : bool :=
  String.eqb condition value.

Definition permissionMatches (userPerm requestedPerm : Permission) : bool :=
  if negb (String.eqb (resource userPerm) "*") &&
     negb (String.eqb (resource userPerm) (resource requestedPerm)) then false
  else if negb (String.eqb (action userPerm) "*") &&
          negb (String.eqb (action userPerm) (action requestedPerm)) then false
  else if negb (String.eqb (scope userPerm) "global") &&
          negb (String.eqb (scope userPerm) (scope requestedPerm)) then false
  else if truthy (condition userPerm) && truthy (condition requestedPerm) then
    evaluateCondition (default "" (condition userPerm))
                      (default "" (condition requestedPerm))
  else true.

Definition permissionsEqual (a b : Permission) : bool :=
  String.eqb (resource a) (resource b) &&
  String.eqb (action a) (action b) &&
  String.eqb (scope a) (scope b).

(** The key [dedupePermissions] files a permission under:
    [`${perm.resource}:${perm.action}:${perm.scope}`]. *)
Definition permKey (perm : Permission) : string :=
  resource perm +:+ ":" +:+ action perm +:+ ":" +:+ scope perm.

(** The loop of [dedupePermissions], started with the keys in
    [seen]. *)
Fixpoint dedupeFrom (seen : gset string) (perms : list Permission)
    : list Permission :=
  match perms with
  | [] => []
  | perm :: rest =>
      if bool_decide (permKey perm ∈ seen) then dedupeFrom seen rest
      else perm :: dedupeFrom ({[permKey perm]} ∪ seen) rest
  end.

Definition dedupePermissions (perms : list Permission) : list Permission :=
  dedupeFrom ∅ perms.

(** The direct permissions first, then those of the user's roles in
    the order of the role ids; a role id without a role adds
    nothing. *)
Definition getUserPermissions (st : State) (userId : string) : list Permission :=
  let userRoleIds := default [] (userRoles st !! userId) in
  let userDirectPermissions := default [] (permissions st !! userId) in
  dedupePermissions
    (userDirectPermissions ++
     concat (map (fun roleId =>
                    match roles st !! roleId with
                    | Some role => role_permissions role
                    | None => []
                    end) userRoleIds))%list.

Definition checkPermission (st : State) (userId : string)
    (requestedPermission : Permission) : bool :=
  existsb (fun perm => permissionMatches perm requestedPermission)
          (getUserPermissions st userId).

Definition getEffectivePermissions (st : State) (userId : string)
    : list Permission :=
  getUserPermissions st userId.

Definition addPermission (st : State) (userId : string) (permission : Permission)
    : State :=
  {| roles := roles st;
     userRoles := userRoles st;
     permissions :=
       <[userId := (default [] (permissions st !! userId) ++ [permission])%list]>
         (permissions st) |}.

Definition removePermission (st : State) (userId : string)
    (permission : Permission) : State :=
  {| roles := roles st;
     userRoles := userRoles st;
     permissions :=
       <[userId := List.filter (fun perm => negb (permissionsEqual perm permission))
                               (default [] (permissions st !! userId))]>
         (permissions st) |}.

Definition initializeDefaultRoles (roles : gmap string Role) : gmap string Role :=
  <["viewer" := mkRole "viewer" "Viewer"
      [ mkPermission "agent" "read" "global" None;
        mkPermission "session" "read" "global" None ]]>
  (<["user" := mkRole "user" "Standard User"
      [ mkPermission "agent" "read" "global" None;
        mkPermission "agent" "write" "own" None;
        mkPermission "session" "read" "own" None;
        mkPermission "session" "write" "own" None;
        mkPermission "tool" "execute" "allowed" None ]]>
  (<["admin" := mkRole "admin" "Administrator"
      [ mkPermission "*" "*" "global" None ]]> roles)).

(** The state after the constructor. *)
Definition init : State :=
  {| roles := initializeDefaultRoles ∅;
     userRoles := ∅;
     permissions := ∅ |}.

(** The states the public methods lead to from a new instance. *)
Inductive reachable : State -> Prop :=
| reachable_init : reachable init
| reachable_add st userId permission :
    reachable st -> reachable (addPermission st userId permission)
| reachable_remove st userId permission :
    reachable st -> reachable (removePermission st userId permission).

End RBAC.

(** ** Documented code: authentication ([guide/security.md]) *)

(** [s.split(sep)] for a separator of one character: the pieces
    between the separators, at least one. *)
Fixpoint splitOn (sep : ascii) (s : string) : list string :=
  match s with
  | EmptyString => [""]
  | String c s' =>
      if Ascii.eqb c sep then "" :: splitOn sep s'
      else match splitOn sep s' with
           | piece :: rest => String c piece :: rest
           | [] => [String c ""]
           end
  end.

(** [s.split(sep, limit)]: the first [limit] pieces; the others are
    dropped. *)
Definition splitLimit (sep : ascii) (limit : nat) (s : string) : list string :=
  take limit (splitOn sep s).

(** Whether the character [c] occurs in [s]. *)
Fixpoint containsChar (c : ascii) (s : string) : bool :=
  match s with
  | EmptyString => false
  | String d s' => Ascii.eqb d c || containsChar c s'
  end.

Module Authn.

(** A result, or the message of the [Error] thrown. *)
Inductive Outcome (A : Type) :=
| Ok (a : A)
| Thrown (msg : string).

Arguments Ok {A} _.
Arguments Thrown {A} _.

Inductive FirewallAction := allow | deny.

Record FirewallRule := mkRule {
  cidr : string;
  rule_action : FirewallAction
}.

(** [config.firewall]; the methods read it with [?.], so it may be
    absent. *)
Record Firewall := mkFirewall {
  enabled : bool;
  rules : list FirewallRule
}.

Record User := mkUser {
  user_id : string;
  username : string;
  hashedPassword : string;
  user_permissions : list RBAC.Permission;
  apiKeys : option (list string)
}.

(** Dates are milliseconds since the epoch. *)
Record Session := mkSession {
  session_id : string;
  userId : string;
  createdAt : Z;
  expiresAt : Z;
  session_permissions : list RBAC.Permission;
  ip : string
}.

Inductive CredentialType := password | token | oauth | apikey.

(** [Credentials], with the [ip] entry that [createSession] looks
    for. *)
Record Credentials := mkCredentials {
  cred_type : CredentialType;
  value : string;
  cred_ip : option string
}.

Record AuthRequest := mkRequest {
  method : string;
  headers : gmap string string;
  remoteAddr : option string
}.

(** [AuthResult]: refused with an error, or authenticated. *)
Inductive AuthResult :=
| Denied (error : string)
| Granted (userId sessionId : string) (permissions : list RBAC.Permission).

(** The fields of [BasicAuthenticationSystem].  [users] is a [Map]
    that the methods iterate over, so the order of insertion is
    kept. *)
Record State := mkState {
  sessions : gmap string Session;
  users : list (string * User);
  firewall : option Firewall
}.

(** [24 * 60 * 60 * 1000] *)
Definition DAY : Z := 24 * 60 * 60 * 1000.

(** Whether an optional string counts as true in a condition. *)
Definition truthy (s : option string) : bool :=
  match s with
  | Some s => negb (String.eqb s "")
  | None => false
  end.

(** [ipInRange]: the body is [return true]. *)
Definition ipInRange (ip cidr : string) : bool := true.

Record IPCheck := mkIPCheck {
  allowed : bool;
  reason : option string
}.

(** The loop of [checkIPWhitelist] over the rules. *)
Fixpoint checkRules (ip : string) (rs : list FirewallRule) : IPCheck :=
  match rs with
  | [] => mkIPCheck false (Some "IP not in whitelist")
  | rule :: rs' =>
      if ipInRange ip (cidr rule) then
        match rule_action rule with
        | allow => mkIPCheck true (Some "Whitelisted")
        | deny => mkIPCheck false (Some "Blocked by firewall")
        end
      else checkRules ip rs'
  end.

Definition checkIPWhitelist (st : State) (ip : option string) : IPCheck :=
  match ip, firewall st with
  | Some addr, Some fw =>
      if truthy ip then checkRules addr (rules fw) else mkIPCheck true None
  | _, _ => mkIPCheck true None
  end.

(** [verifyPassword]: [password === hashedPassword]; the password is
    [undefined] when a Basic header has no colon. *)
Definition verifyPassword (pw : option string) (hashed : string) : bool :=
  match pw with
  | Some p => String.eqb p hashed
  | None => false
  end.

(** [validatePassword]: the first user, in the order of the map, whose
    password verifies. *)
Definition validatePassword (st : State) (pw : option string) : option User :=
  snd <$> find (fun kv => verifyPassword pw (hashedPassword (snd kv))) (users st).

(** [hashApiKey]: the body is [return apiKey]. *)
Definition hashApiKey (apiKey : option string) : option string := apiKey.

(** [validateApiKey]: the first user whose [apiKeys] include the
    key. *)
Definition validateApiKey (st : State) (apiKey : option string) : option User :=
  snd <$> find (fun kv =>
                  match apiKeys (snd kv), hashApiKey apiKey with
                  | Some keys, Some k => existsb (String.eqb k) keys
                  | _, _ => false
                  end) (users st).

(** [this.users.get(id)] *)
Definition getUser (st : State) (id : string) : option User :=
  snd <$> find (fun kv => String.eqb (fst kv) id) (users st).

(** [generateSessionId]: [`sess_${Date.now()}_${r}`], where [r] is
    [Math.random().toString(36).substr(2, 9)]. *)
Definition generateSessionId (now : Z) (rnd : string) : string :=
  "sess_" +:+ pretty now +:+ "_" +:+ rnd.

Section Methods.

(** Library functions and the randomness are inputs: the [userId] a
    token decodes to ([None] when [decodeJWT] throws or the payload has
    none), [Buffer.from(s, 'base64').toString('utf8')] and
    [String.prototype.toLowerCase]. *)
Variable decodeJWT : string -> option string.
Variable base64Decode : string -> string.
Variable toLowerCase : string -> string.

Definition validateToken (st : State) (tok : string) : option User :=
  match decodeJWT tok with
  | Some id => getUser st id
  | None => None
  end.

Definition validateCredentials (st : State) (credentials : Credentials)
    : option User :=
  match cred_type credentials with
  | password => validatePassword st (Some (value credentials))
  | token => validateToken st (value credentials)
  | apikey => validateApiKey st (Some (value credentials))
  | oauth => None
  end.

(** [createSession], at the time [now] and with the random part [rnd]
    of the session id. *)
Definition createSession (credentials : Credentials) (now : Z) (rnd : string)
    (st : State) : Outcome Session * State :=
  match validateCredentials st credentials with
  | None => (Thrown "Invalid credentials", st)
  | Some user =>
      let sessionId := generateSessionId now rnd in
      let session :=
        {| session_id := sessionId;
           userId := user_id user;
           createdAt := now;
           expiresAt := now + DAY;
           session_permissions := user_permissions user;
           ip := if truthy (cred_ip credentials)
                 then default "" (cred_ip credentials) else "unknown" |} in
      (Ok session,
       {| sessions := <[sessionId := session]> (sessions st);
          users := users st; firewall := firewall st |})
  end.

(** [validateSession], at the time [now].  The session object in the
    map is the one whose [expiresAt] is set, so the map sees the new
    date. *)
Definition validateSession (tok : option string) (now : Z) (st : State)
    : option Session * State :=
  match tok with
  | None => (None, st)
  | Some t =>
      match sessions st !! t with
      | None => (None, st)
      | Some session =>
          if (expiresAt session <? now)%Z then
            (None, {| sessions := delete t (sessions st);
                      users := users st; firewall := firewall st |})
          else
            let session :=
              {| session_id := session_id session;
                 userId := userId session;
                 createdAt := createdAt session;
                 expiresAt := now + DAY;
                 session_permissions := session_permissions session;
                 ip := ip session |} in
            (Some session,
             {| sessions := <[t := session]> (sessions st);
                users := users st; firewall := firewall st |})
      end
  end.

Definition revokeSession (sessionId : string) (st : State) : State :=
  {| sessions := delete sessionId (sessions st);
     users := users st; firewall := firewall st |}.

Definition authenticateBearerToken (tok : option string) (now : Z) (st : State)
    : AuthResult * State :=
  match validateSession tok now st with
  | (None, st') => (Denied "Invalid or expired token", st')
  | (Some session, st') =>
      (Granted (userId session) (session_id session) (session_permissions session),
       st')
  end.

(** [authenticateBasicAuth]: everything thrown inside is caught and
    answered with [Invalid basic auth format]; decoding [undefined]
    throws. *)
Definition authenticateBasicAuth (encoded : option string) (now : Z) (rnd : string)
    (st : State) : AuthResult * State :=
  match encoded with
  | None => (Denied "Invalid basic auth format", st)
  | Some enc =>
      let parts := splitLimit ":" 2 (base64Decode enc) in
      let name := parts !! 0 in
      let pw := parts !! 1 in
      match validatePassword st pw with
      | None => (Denied "Invalid credentials", st)
      | Some user =>
          if bool_decide (Some (username user) = name) then
            match createSession (mkCredentials password (default "" pw) None)
                                now rnd st with
            | (Ok session, st') =>
                (Granted (user_id user) (session_id session) (user_permissions user),
                 st')
            | (Thrown _, st') => (Denied "Invalid basic auth format", st')
            end
          else (Denied "Invalid credentials", st)
      end
  end.

(** [authenticateApiKey]: nothing is caught here, so an error of
    [createSession] is the error of the call. *)
Definition authenticateApiKey (apiKey : option string) (now : Z) (rnd : string)
    (st : State) : Outcome AuthResult * State :=
  match validateApiKey st apiKey with
  | None => (Ok (Denied "Invalid API key"), st)
  | Some user =>
      match createSession (mkCredentials apikey (default "" apiKey) None)
                          now rnd st with
      | (Ok session, st') =>
          (Ok (Granted (user_id user) (session_id session) (user_permissions user)),
           st')
      | (Thrown msg, st') => (Thrown msg, st')
      end
  end.

Definition authenticate (request : AuthRequest) (now : Z) (rnd : string)
    (st : State) : Outcome AuthResult * State :=
  if from_option enabled false (firewall st) &&
     negb (allowed (checkIPWhitelist st (remoteAddr request))) then
    (Ok (Denied ("IP " +:+ default "undefined" (remoteAddr request) +:+ " is blocked")),
     st)
  else
    let authHeader := headers request !! "authorization" in
    if negb (truthy authHeader) then
      (Ok (Denied "No authentication header provided"), st)
    else
      let parts := splitLimit " " 2 (default "" authHeader) in
      let authType := default "" (parts !! 0) in
      let authValue := parts !! 1 in
      let kind := toLowerCase authType in
      if String.eqb kind "bearer" then
        let (r, st') := authenticateBearerToken authValue now st in (Ok r, st')
      else if String.eqb kind "basic" then
        let (r, st') := authenticateBasicAuth authValue now rnd st in (Ok r, st')
      else if String.eqb kind "apikey" then
        authenticateApiKey authValue now rnd st
      else
        (Ok (Denied ("Unsupported authentication type: " +:+ authType)), st).

End Methods.

(** What an answer of [authenticate] at the time [now] says about the
    sessions: a grant names a stored session of that user, valid for a
    day from [now]; a refusal has opened or changed no session. *)
Definition answerBacked (now : Z) (st st' : State) (r : AuthResult) : Prop :=
  match r with
  | Granted uid sid perms =>
      exists s, sessions st' !! sid = Some s /\ session_id s = sid /\
                userId s = uid /\ session_permissions s = perms /\
                expiresAt s = (now + DAY)%Z
  | Denied _ =>
      forall t, sessions st' !! t = None \/ sessions st' !! t = sessions st !! t
  end.

(** Every session is stored under its own id, as [createSession]
    stores it. *)
Definition wellKeyed (st : State) : Prop :=
  forall t s, sessions st !! t = Some s -> session_id s = t.

(** The state with the firewall taken out of the configuration. *)
Definition withoutFirewall (st : State) : State :=
  {| sessions := sessions st; users := users st; firewall := None |}.

(** [loadUsers]: the one user the constructor stores. *)
Definition loadUsers : list (string * User) :=
  [ ("default-user",
     mkUser "default-user" "default" "hashed-password"
       [ RBAC.mkPermission "*" "*" "global" None ]
       (Some ["default-api-key"])) ].

(** The state after [new BasicAuthenticationSystem(config)]. *)
Definition init (fw : option Firewall) : State :=
  {| sessions := ∅; users := loadUsers; firewall := fw |}.

(** Lower-casing of the ASCII letters, an instance of [toLowerCase]
    for headers written in ASCII. *)
Fixpoint asciiLower (s : string) : string :=
  match s with
  | EmptyString => EmptyString
  | String c s' =>
      let n := nat_of_ascii c in
      String (if (65 <=? n)%nat && (n <=? 90)%nat then ascii_of_nat (n + 32) else c)
             (asciiLower s')
  end.

End Authn.

(** ** Documented code: command validation of the sandboxes
       ([guide/security.md]) *)

Module Sandbox.

Record NetworkPolicy := mkNetworkPolicy {
  net_enabled : bool;
  allowInbound : bool;
  allowOutbound : bool;
  allowedHosts : list string;
  blockedHosts : list string
}.

Record FilesystemPolicy := mkFilesystemPolicy {
  readOnly : bool;
  allowedPaths : list string;
  blockedPaths : list string
}.

(** [SandboxConfig], without the resource limits, which the validation
    does not read. *)
Record SandboxConfig := mkSandboxConfig {
  sandbox_enabled : bool;
  mode : string;
  allowlist : list string;
  denylist : list string;
  networkPolicy : NetworkPolicy;
  filesystemPolicy : FilesystemPolicy
}.

Record Command := mkCommand {
  executable : string;
  args : list string;
  cwd : option string
}.

(** [list.includes(s)] *)
Definition includes (l : list string) (s : string) : bool :=
  existsb (String.eqb s) l.

Section Validate.

(** [path.basename] of Node. *)
Variable basename : string -> string.

(** The part both sandboxes share: the allow list, when it is not
    empty, must name the executable, and the deny list must not. *)
Definition listsAllow (config : SandboxConfig) (command : Command) : bool :=
  if (0 <? length (allowlist config))%nat &&
     negb (includes (allowlist config) (basename (executable command)))
  then false
  else if (0 <? length (denylist config))%nat &&
          includes (denylist config) (basename (executable command))
  then false
  else true.

(** [ProcessSandboxSystem.validateCommand] *)
Definition validateCommandProcess (config : SandboxConfig) (command : Command)
    : bool :=
  listsAllow config command.

(** The loop over the arguments of [rm] and [mv]: an absolute path
    must start with one of the allowed paths. *)
Definition argAllowed (config : SandboxConfig) (arg : string) : bool :=
  if startsWith arg "/" then
    existsb (fun allowedPath => startsWith arg allowedPath)
            (allowedPaths (filesystemPolicy config))
  else true.

(** [DockerSandboxSystem.validateCommand] *)
Definition validateCommandDocker (config : SandboxConfig) (command : Command)
    : bool :=
  if negb (listsAllow config command) then false
  else if (String.eqb (executable command) "curl" ||
           String.eqb (executable command) "wget") &&
          negb (allowOutbound (networkPolicy config))
  then false
  else if (String.eqb (executable command) "rm" ||
           String.eqb (executable command) "mv") &&
          negb (forallb (argAllowed config) (args command))
  then false
  else true.

End Validate.

(** [path.basename] on POSIX: the last piece of the path that is not
    empty, the empty string when there is none. *)
Definition posixBasename (p : string) : string :=
  List.last (List.filter (fun piece => negb (String.eqb piece ""))
                         (splitOn "/" p)) "".

End Sandbox.

(** ** Documented code: the two level cache ([guide/security.md]) *)

Module Cache.

Section Cache.

(** The values that are not [null]; a cached value is such a value or
    [null] ([None]).  Values are taken to survive being written to a
    file as JSON and read back. *)
Context {W : Type}.

(** [CacheItem] *)
Record CacheItem := mkItem {
  value : option W;
  timestamp : Z;
  ttl : Z
}.

(** What a file of the disk cache holds: the entry [set] wrote, or
    something [JSON.parse] or the reads of its fields fail on. *)
Inductive FileContent :=
| Entry (item : CacheItem)
| Garbage.

(** [crypto.createHash('sha256').update(key).digest('hex')] *)
Variable hashKey : string -> string.

(** [DiskCache.get] at the time [now]: a missing or unreadable file
    gives [null]; an entry past its time is unlinked.  [disk] holds the
    files of the cache directory, each under the hash in its name. *)
Definition diskGet (key : string) (now : Z) (disk : gmap string FileContent)
    : option W * gmap string FileContent :=
  match disk !! hashKey key with
  | Some (Entry data) =>
      if (ttl data <? now - timestamp data)%Z
      then (None, delete (hashKey key) disk)
      else (value data, disk)
  | _ => (None, disk)
  end.

(** [DiskCache.set]: the time to live on disk is always [300000]. *)
Definition diskSet (key : string) (v : option W) (now : Z)
    (disk : gmap string FileContent) : gmap string FileContent :=
  <[hashKey key := Entry (mkItem v now 300000)]> disk.

Definition diskDelete (key : string) (disk : gmap string FileContent)
    : gmap string FileContent :=
  delete (hashKey key) disk.

(** The fields of [MultiLevelCache]. *)
Record State := mkState {
  memoryCache : gmap string CacheItem;
  diskCache : gmap string FileContent;
  cache_ttl : Z
}.

(** [isExpired] at the time [now] *)
Definition isExpired (now : Z) (item : CacheItem) : bool :=
  (ttl item <? now - timestamp item)%Z.

(** [MultiLevelCache.get] at the time [now]: the item in memory when
    there is one that has not expired, otherwise the value on disk,
    which is put into memory again unless it is [null]. *)
Definition get (key : string) (now : Z) (st : State) : option W * State :=
  let memItem := memoryCache st !! key in
  if from_option (fun item => negb (isExpired now item)) false memItem then
    (from_option value None memItem, st)
  else
    let (diskValue, disk) := diskGet key now (diskCache st) in
    match diskValue with
    | Some _ =>
        (diskValue,
         {| memoryCache :=
              <[key := mkItem diskValue now (cache_ttl st)]> (memoryCache st);
            diskCache := disk; cache_ttl := cache_ttl st |})
    | None =>
        (None, {| memoryCache := memoryCache st; diskCache := disk;
                  cache_ttl := cache_ttl st |})
    end.

(** [MultiLevelCache.set] at the time [now] *)
Definition set (key : string) (v : option W) (now : Z) (st : State) : State :=
  {| memoryCache := <[key := mkItem v now (cache_ttl st)]> (memoryCache st);
     diskCache := diskSet key v now (diskCache st);
     cache_ttl := cache_ttl st |}.

(** [MultiLevelCache.delete] *)
Definition delete_ (key : string) (st : State) : State :=
  {| memoryCache := delete key (memoryCache st);
     diskCache := diskDelete key (diskCache st);
     cache_ttl := cache_ttl st |}.

(** One run of the timer of [setupCacheEviction] at the time [now]:
    the expired items leave the memory cache. *)
Definition evict (now : Z) (st : State) : State :=
  {| memoryCache := filter (fun kv => isExpired now (snd kv) = false) (memoryCache st);
     diskCache := diskCache st;
     cache_ttl := cache_ttl st |}.

(** The state after [new MultiLevelCache(ttl)], with an empty cache
    directory. *)
Definition init (ttl : Z) : State :=
  {| memoryCache := ∅; diskCache := ∅; cache_ttl := ttl |}.

End Cache.

End Cache.

(** ** Documented code: security monitoring ([guide/security.md]) *)

Module Monitor.

(** [SecurityEvent].  [ev_command] is [details.command]; times are
    milliseconds since the epoch. *)
Record SecurityEvent := mkEvent {
  ev_id : string;
  ev_timestamp : Z;
  ev_type : string;
  ev_severity : string;
  ev_userId : option string;
  ev_source : string;
  ev_command : option string
}.

(** [AnomalyReport].  The confidences written in the code are decimal
    fractions; they are kept as rationals, which compare as the
    literals do. *)
Record AnomalyReport := mkReport {
  rep_id : string;
  eventId : string;
  rep_type : string;
  confidence : Q;
  description : string;
  suggestedAction : string;
  relatedEvents : list string
}.

Record Alert := mkAlert {
  alert_id : string;
  alert_timestamp : Z;
  severity : string;
  alert_title : string;
  alert_description : string;
  affectedResources : list string;
  suggestedResponse : list string;
  autoResponseApplied : bool
}.

(** Whether an optional string counts as true in a condition. *)
Definition truthy (s : option string) : bool :=
  match s with
  | Some s => negb (String.eqb s "")
  | None => false
  end.

(** [event.userId || 'unknown'] *)
Definition userKey (event : SecurityEvent) : string :=
  if truthy (ev_userId event) then default "" (ev_userId event) else "unknown".

(** One step of [groupByUserId]: the event joins the group of its
    user, a new group going to the end of the map. *)
Fixpoint addToGroup (userId : string) (event : SecurityEvent)
    (groups : list (string * list SecurityEvent))
    : list (string * list SecurityEvent) :=
  match groups with
  | [] => [(userId, [event])]
  | (k, l) :: rest =>
      if String.eqb k userId then (k, (l ++ [event])%list) :: rest
      else (k, l) :: addToGroup userId event rest
  end.

(** [groupByUserId]; the [Map] keeps the order in which the users
    first occur. *)
Definition groupByUserId (events : list SecurityEvent)
    : list (string * list SecurityEvent) :=
  fold_left (fun groups event => addToGroup (userKey event) event groups) events [].

(** [groups.get(userId)] *)
Definition groupOf (userId : string) (groups : list (string * list SecurityEvent))
    : option (list SecurityEvent) :=
  snd <$> find (fun kl => String.eqb (fst kl) userId) groups.

(** [Array.prototype.sort] with the comparator
    [a.timestamp - b.timestamp]: the stable sort by time. *)
Fixpoint insertByTime (event : SecurityEvent) (sorted : list SecurityEvent)
    : list SecurityEvent :=
  match sorted with
  | [] => [event]
  | x :: rest =>
      if (ev_timestamp event <? ev_timestamp x)%Z then event :: x :: rest
      else x :: insertByTime event rest
  end.

Definition sortByTime (events : list SecurityEvent) : list SecurityEvent :=
  fold_left (fun sorted event => insertByTime event sorted) events [].

(** [getTimeSpan]: the span and the array as the call leaves it, since
    [sort] orders the array it is given. *)
Definition getTimeSpan (events : list SecurityEvent) : Z * list SecurityEvent :=
  if (length events <? 2)%nat then (0%Z, events)
  else
    let sorted := sortByTime events in
    match sorted with
    | [] => (0%Z, sorted)
    | first :: _ =>
        ((ev_timestamp (List.last sorted first) - ev_timestamp first)%Z, sorted)
    end.

(** The body of the loop of [LoginAnomalyDetector.analyze] for one
    group. *)
Definition loginReport (now : Z) (group : string * list SecurityEvent)
    : option AnomalyReport :=
  let (userId, userFailures) := group in
  if (5 <=? length userFailures)%nat then
    let (timeSpan, userFailures) := getTimeSpan userFailures in
    if (timeSpan <? 300000)%Z then
      Some {| rep_id := "anomaly_" +:+ pretty now +:+ "_" +:+ userId;
              eventId := from_option ev_id "" (last userFailures);
              rep_type := "threat";
              confidence := (9 # 10)%Q;
              description :=
                "Potential brute force attack detected for user " +:+ userId;
              suggestedAction := "block";
              relatedEvents := map ev_id userFailures |}
    else None
  else None.

(** [LoginAnomalyDetector.analyze] at the time [now] *)
Definition analyzeLogin (now : Z) (events : list SecurityEvent)
    : list AnomalyReport :=
  let loginFailures :=
    List.filter (fun e => String.eqb (ev_type e) "login_failure") events in
  omap (loginReport now) (groupByUserId loginFailures).

Section Detectors.

(** [isSuspiciousCommand] tests the command against regular
    expressions; it is an input here. *)
Variable isSuspiciousCommand : string -> bool.

Definition commandReport (now : Z) (event : SecurityEvent) : option AnomalyReport :=
  if truthy (ev_command event) &&
     isSuspiciousCommand (default "" (ev_command event)) then
    Some {| rep_id := "anomaly_" +:+ pretty now +:+ "_" +:+ ev_id event;
            eventId := ev_id event;
            rep_type := "policy_violation";
            confidence := (8 # 10)%Q;
            description :=
              "Suspicious command detected: " +:+ default "" (ev_command event);
            suggestedAction := "block";
            relatedEvents := [ev_id event] |}
  else None.

(** [CommandAnomalyDetector.analyze] *)
Definition analyzeCommand (now : Z) (events : list SecurityEvent)
    : list AnomalyReport :=
  omap (commandReport now)
       (List.filter (fun e => String.eqb (ev_source e) "tool") events).

(** [AccessPatternDetector.analyze] and [DataAccessDetector.analyze]
    return the empty array they start with. *)
Definition analyzeAccessPattern (events : list SecurityEvent) : list AnomalyReport := [].
Definition analyzeDataAccess (events : list SecurityEvent) : list AnomalyReport := [].

(** [detectAnomalies], over the four detectors in the order
    [initializeDetectors] registers them. *)
Definition detectAnomalies (now : Z) (events : list SecurityEvent)
    : list AnomalyReport :=
  (analyzeLogin now events ++ analyzeCommand now events ++
   analyzeAccessPattern events ++ analyzeDataAccess events)%list.

Definition getSuggestedResponses (anomaly : AnomalyReport) : list string :=
  if String.eqb (suggestedAction anomaly) "block" then
    ["Block user/IP"; "Review access logs"; "Notify administrators"]
  else if String.eqb (suggestedAction anomaly) "warn" then
    ["Monitor closely"; "Review user activity"; "Consider access restrictions"]
  else if String.eqb (suggestedAction anomaly) "investigate" then
    ["Investigate thoroughly"; "Check related accounts"; "Review security policies"]
  else ["Monitor activity"; "Document incident"].

(** [a > b] on the confidences *)
Definition Qgtb (a b : Q) : bool := negb (Qle_bool a b).

(** The alert of one anomaly; [rnd] is the random part of its id. *)
Definition alertOf (now : Z) (rnd : string) (anomaly : AnomalyReport) : Alert :=
  {| alert_id := "alert_" +:+ pretty now +:+ "_" +:+ rnd;
     alert_timestamp := now;
     severity := if Qgtb (confidence anomaly) (9 # 10) then "critical" else "warning";
     alert_title := "Security Anomaly Detected: " +:+ rep_type anomaly;
     alert_description := description anomaly;
     affectedResources := [eventId anomaly];
     suggestedResponse := getSuggestedResponses anomaly;
     autoResponseApplied := false |}.

(** [generateAlerts]; [rnd i] is the random part drawn for the
    anomaly at position [i]. *)
Definition generateAlerts (now : Z) (rnd : nat -> string)
    (anomalies : list AnomalyReport) : list Alert :=
  omap (fun ia => if Qgtb (confidence (snd ia)) (7 # 10)
                  then Some (alertOf now (rnd (fst ia)) (snd ia)) else None)
       (imap (fun i a => (i, a)) anomalies).

(** What the monitor does to the outside: it calls a subscriber with
    an alert, blocks, or increases the monitoring. *)
Inductive Action :=
| Notify (subscriber : nat) (alert : Alert)
| Block (alert : Alert)
| IncreaseMonitoring (alert : Alert).

(** The fields of [SecurityMonitor]: the log, the number of
    subscribed callbacks and [config.audit?.enabled]. *)
Record State := mkState {
  eventLog : list SecurityEvent;
  subscribers : nat;
  auditEnabled : bool
}.

(** [respondToIncident] *)
Definition respondToIncident (alert : Alert) : list Action :=
  if String.eqb (severity alert) "critical" then [Block alert]
  else if String.eqb (severity alert) "warning" then [IncreaseMonitoring alert]
  else [].

(** [handleAlert]: every subscriber is called, then the incident is
    answered when auditing is on. *)
Definition handleAlert (st : State) (alert : Alert) : list Action :=
  (map (fun i => Notify i alert) (seq 0 (subscribers st)) ++
   (if auditEnabled st then respondToIncident alert else []))%list.

(** [logEvent] at the time [now]: the new state and what was done. *)
Definition logEvent (event : SecurityEvent) (now : Z) (rnd : nat -> string)
    (st : State) : State * list Action :=
  let log := (eventLog st ++ [event])%list in
  let log := if (10000 <? Z.of_nat (length log))%Z
             then drop (Z.to_nat (Z.of_nat (length log) - 5000)) log else log in
  let st' := {| eventLog := log; subscribers := subscribers st;
                auditEnabled := auditEnabled st |} in
  let anomalies := detectAnomalies now [event] in
  let alerts := generateAlerts now rnd anomalies in
  (st', concat (map (handleAlert st') alerts)).

End Detectors.

End Monitor.

(** ** Documented code: the resource manager ([guide/security.md]) *)

Module Resources.

(** [ResourceType] *)
Inductive ResourceType := agent | browser | exec | memory | disk.

Definition ResourceType_eqb (a b : ResourceType) : bool :=
  match a, b with
  | agent, agent | browser, browser | exec, exec | memory, memory | disk, disk => true
  | _, _ => false
  end.

Section Manager.

(** What a caller asks for ([ResourceRequirements]); the manager only
    stores it. *)
Context {Requirements : Type}.

(** An entry of [activeResources]. *)
Record ResourceUsage := mkUsage {
  res_type : ResourceType;
  requirements : Requirements;
  acquiredAt : Z
}.

(** The fields of [ResourceManager]: the map of active resources and
    [config.agents.maxConcurrentRuns]. *)
Record State := mkState {
  activeResources : gmap string ResourceUsage;
  maxConcurrentRuns : Z
}.

(** [Array.from(values()).filter(r => r.type === type).length] *)
Definition activeOfType (type : ResourceType) (st : State) : nat :=
  size (filter (fun kv => ResourceType_eqb (res_type (snd kv)) type = true)
               (activeResources st)).

(** [acquireResource] at the time [now].  [sufficient] is the outcome
    of [hasSufficientResources] on the status of the system, which
    depends on the machine. *)
Definition acquireResource (type : ResourceType) (id : string)
    (reqs : Requirements) (now : Z) (sufficient : bool) (st : State)
    : bool * State :=
  if negb sufficient then (false, st)
  else if ResourceType_eqb type agent &&
          (maxConcurrentRuns st <=? Z.of_nat (activeOfType type st))%Z
  then (false, st)
  else (true, {| activeResources :=
                   <[id := mkUsage type reqs now]> (activeResources st);
                 maxConcurrentRuns := maxConcurrentRuns st |}).

Definition releaseResource (id : string) (st : State) : State :=
  {| activeResources := delete id (activeResources st);
     maxConcurrentRuns := maxConcurrentRuns st |}.

(** The state after the constructor. *)
Definition init (maxRuns : Z) : State :=
  {| activeResources := ∅; maxConcurrentRuns := maxRuns |}.

End Manager.

End Resources.

(** * Properties *)

(** ** Strings *)

Lemma startsWith_app (h s : string) : startsWith (h +:+ s) h = true.
Proof.
  unfold startsWith.
  induction h as [|c h IH]; simpl.
  - by destruct s.
  - destruct (Ascii.ascii_dec c c) as [_|Hne]; [exact IH | by destruct Hne].
Qed.

Lemma startsWith_inv (s p : string) :
  startsWith s p = true -> exists r, s = p +:+ r.
Proof.
  unfold startsWith.
  revert s; induction p as [|c p IH]; intros s H.
  - by exists s.
  - destruct s as [|d s]; simpl in H; [discriminate|].
    destruct (Ascii.ascii_dec c d) as [->|_]; [|discriminate].
    destruct (IH s H) as [r ->].
    by exists r.
Qed.

Lemma splitScheme_app (s sch rest : string) :
  splitScheme s = Some (sch, rest) -> s = sch +:+ "://" +:+ rest.
Proof.
  revert sch; induction s as [|c s IH]; intros sch H; [discriminate|].
  cbn [splitScheme] in H.
  destruct (startsWith (String c s) "://") eqn:Hp.
  - apply startsWith_inv in Hp as [r Hr].
    injection Hr as -> ->. by injection H as <- <-.
  - destruct (splitScheme s) as [[sch' rest']|]; [|discriminate].
    injection H as <- <-.
    change (String c s = String c (sch' +:+ "://" +:+ rest')).
    f_equal. by apply IH.
Qed.

Lemma endsWith_app (s p : string) : endsWith (s +:+ p) p = true.
Proof.
  induction s as [|c s IH].
  - destruct p; simpl; [done|]. by rewrite Ascii.eqb_refl, String.eqb_refl.
  - change (String c s +:+ p) with (String c (s +:+ p)).
    cbn [endsWith]. rewrite IH. by destruct (String.eqb _ _).
Qed.

(** ** SEO head tags *)

(** C3.  The Open Graph image tag and the Twitter image tag hold the
    hostname constant followed by [/pixel-lobster.svg], whatever string
    the constant is (nothing validates or rewrites it); with the
    hostname [https://example.org] both are exactly
    [https://example.org/pixel-lobster.svg]. *)
Theorem C3_image_tags_concatenate_hostname :
  (forall h : string,
      metaContent "property" "og:image" (Config.defaultExport h)
        = Some (h +:+ "/pixel-lobster.svg") /\
      metaContent "name" "twitter:image" (Config.defaultExport h)
        = Some (h +:+ "/pixel-lobster.svg")) /\
  metaContent "property" "og:image" (Config.defaultExport "https://example.org")
    = Some "https://example.org/pixel-lobster.svg" /\
  metaContent "name" "twitter:image" (Config.defaultExport "https://example.org")
    = Some "https://example.org/pixel-lobster.svg".
Proof.
  split; [intros h; split; reflexivity|].
  split; reflexivity.
Qed.

(** ** Hostname round trip *)

Lemma metaImageUrls_defaultExport (h : string) :
  metaImageUrls (Config.defaultExport h)
    = [h +:+ "/pixel-lobster.svg"; h +:+ "/pixel-lobster.svg"].
Proof. reflexivity. Qed.

Lemma sitemapEntries_prefixed (cfg : UserConfig) (routes : list string) (e : string) :
  e ∈ sitemapEntries cfg routes ->
  startsWith e (sitemap_hostname (sitemap cfg)) = true.
Proof.
  unfold sitemapEntries.
  intros (r & -> & _)%list_elem_of_fmap.
  apply startsWith_app.
Qed.

(** C9.  The string given as [sitemap.hostname] is the constant that is
    interpolated into the image tags of [head]: for every value [h] of
    the constant, [sitemap.hostname] is [h]; [head] holds an Open Graph
    image tag and a Twitter image tag, their contents are
    [sitemap.hostname] followed by [/pixel-lobster.svg], and these two
    are the absolute URLs among the meta tags, each beginning with [h];
    and the sitemap generated for a list of page routes has one entry
    per route, [h] followed by the route, so every entry begins with
    [h]. *)
Theorem C9_hostname_round_trip (h : string) :
  sitemap_hostname (sitemap (Config.defaultExport h)) = h /\
  metaContent "property" "og:image" (Config.defaultExport h)
    = Some (sitemap_hostname (sitemap (Config.defaultExport h))
            +:+ "/pixel-lobster.svg") /\
  metaContent "name" "twitter:image" (Config.defaultExport h)
    = Some (sitemap_hostname (sitemap (Config.defaultExport h))
            +:+ "/pixel-lobster.svg") /\
  metaImageUrls (Config.defaultExport h)
    = [h +:+ "/pixel-lobster.svg"; h +:+ "/pixel-lobster.svg"] /\
  (forall u, u ∈ metaImageUrls (Config.defaultExport h) ->
             startsWith u h = true) /\
  (forall routes,
     length (sitemapEntries (Config.defaultExport h) routes) = length routes /\
     forall i route, routes !! i = Some route ->
       sitemapEntries (Config.defaultExport h) routes !! i = Some (h +:+ route)) /\
  (forall routes e, e ∈ sitemapEntries (Config.defaultExport h) routes ->
                    startsWith e h = true).
Proof.
  split; [reflexivity|]. split; [reflexivity|]. split; [reflexivity|].
  split; [apply metaImageUrls_defaultExport|]. split; [|split].
  - intros u. rewrite metaImageUrls_defaultExport.
    intros Hu. repeat (apply elem_of_cons in Hu as [->|Hu]; [apply startsWith_app|]).
    by apply elem_of_nil in Hu.
  - intros routes. unfold sitemapEntries. split; [apply length_map|].
    intros i route Hi.
    change (map ?f routes) with (f <$> routes).
    by rewrite list_lookup_fmap, Hi.
  - intros routes e He.
    exact (sitemapEntries_prefixed (Config.defaultExport h) routes e He).
Qed.

Lemma C9_hostname_round_trip_witness :
  startsWith "https://clawdbot-guide.com/pixel-lobster.svg" Config.hostname = true /\
  startsWith "https://clawdbot-guide.com/guide/intro" Config.hostname = true /\
  sitemapEntries Config.config ["/"; "/guide/intro"] !! 1
    = Some "https://clawdbot-guide.com/guide/intro".
Proof.
  destruct (C9_hostname_round_trip Config.hostname)
    as (_ & _ & _ & _ & Hmeta & Hentries & Hmap).
  split; [|split].
  - apply Hmeta. vm_compute. left.
  - apply (Hmap ["/"; "/guide/intro"]). vm_compute. right. left.
  - apply (Hentries ["/"; "/guide/intro"]). reflexivity.
Defined.

(** ** Format of the configured hostname *)

(** C7.  The configured hostname is an absolute URL with a scheme and
    has no trailing slash; the same string with a slash at the end and
    a host name without a scheme do not have this format. *)
Theorem C7_hostname_format :
  validHostname Config.hostname = true /\
  validHostname (sitemap_hostname (sitemap Config.config)) = true /\
  validHostname "https://clawdbot-guide.com" = true /\
  validHostname "https://clawdbot-guide.com/" = false /\
  validHostname "your-actual-domain.com" = false.
Proof. repeat split; reflexivity. Qed.

(** A string that ends in a slash never has the format. *)
Lemma validHostname_trailing_slash (h : string) :
  validHostname (h +:+ "/") = false.
Proof.
  unfold validHostname. rewrite endsWith_app. apply andb_false_r.
Qed.

(** What the format check accepts: a string with [://] in it, that does
    not end in a slash. *)
Lemma validHostname_shape (s : string) :
  validHostname s = true ->
  endsWith s "/" = false /\ exists sch rest, s = sch +:+ "://" +:+ rest.
Proof.
  unfold validHostname, isAbsoluteUrl.
  intros [Habs Hend%negb_true_iff]%andb_true_iff.
  split; [done|].
  destruct (splitScheme s) as [[sch rest]|] eqn:Hs; [|discriminate].
  exists sch, rest. by apply splitScheme_app.
Qed.

(** ** Parallel sidebars *)

Lemma sidebarLinks_en_root :
  sidebarLinks Config.en = map (fun l => "/en" +:+ l) (sidebarLinks Config.root).
Proof. reflexivity. Qed.

(** C10.  Both locales have a sidebar of one section with ten entries,
    and at every index the link of the English entry is [/en] followed
    by the link of the root entry. *)
Theorem C10_sidebars_parallel :
  length (sidebar (themeConfig Config.root)) = 1 /\
  length (sidebar (themeConfig Config.en)) = 1 /\
  length (sidebarItems Config.root) = 10 /\
  length (sidebarItems Config.en) = 10 /\
  forall i : nat,
    link <$> (sidebarItems Config.en !! i)
      = (fun it => "/en" +:+ link it) <$> (sidebarItems Config.root !! i).
Proof.
  repeat (split; [reflexivity|]).
  intros i.
  pose proof sidebarLinks_en_root as H.
  unfold sidebarLinks in H.
  rewrite <- !list_lookup_fmap.
  change (map link (sidebarItems Config.en) !! i =
          map (fun it => "/en" +:+ link it) (sidebarItems Config.root) !! i).
  rewrite H. by rewrite map_map.
Qed.

(** ** Locale routing *)

Lemma resolveLocaleKey_config (route : string) :
  resolveLocaleKey Config.config route
    = if startsWith route "/en/" then "en" else "root".
Proof.
  unfold resolveLocaleKey, Config.config, Config.defaultExport, locales.
  cbn [find matchesLocale fst String.eqb Ascii.eqb Bool.eqb negb andb].
  change (localePrefix "en") with "/en/".
  by destruct (startsWith route "/en/").
Qed.

Lemma resolveLocale_config (route : string) :
  resolveLocale Config.config route
    = Some (if startsWith route "/en/" then Config.en else Config.root).
Proof.
  unfold resolveLocale. rewrite resolveLocaleKey_config.
  by destruct (startsWith route "/en/").
Qed.

(** C4.  Over the configured locale map a route selects the English
    locale, and with it the English sidebar of ten entries, exactly
    when it begins with [/en/]; every other route selects the root
    (Chinese) locale and its sidebar.  So [/en/guide/tools] gets the
    English sidebar and [/guide/tools] the Chinese one. *)
Theorem C4_locale_by_leading_segment (route : string) :
  (resolveLocaleKey Config.config route = "en" <-> startsWith route "/en/" = true) /\
  (startsWith route "/en/" = true ->
     resolveLocale Config.config route = Some Config.en /\
     resolveSidebar Config.config route = sidebar (themeConfig Config.en)) /\
  (startsWith route "/en/" = false ->
     resolveLocaleKey Config.config route = "root" /\
     resolveLocale Config.config route = Some Config.root /\
     resolveSidebar Config.config route = sidebar (themeConfig Config.root)) /\
  length (sidebarItems Config.en) = 10 /\
  sidebar (themeConfig Config.en) <> sidebar (themeConfig Config.root).
Proof.
  unfold resolveSidebar.
  rewrite resolveLocaleKey_config, resolveLocale_config.
  split; [by destruct (startsWith route "/en/")|].
  split; [by intros ->|].
  split; [by intros ->|].
  split; [reflexivity|discriminate].
Qed.

Lemma C4_locale_by_leading_segment_witness :
  resolveSidebar Config.config "/en/guide/tools" = sidebar (themeConfig Config.en) /\
  resolveSidebar Config.config "/guide/tools" = sidebar (themeConfig Config.root).
Proof.
  split.
  - apply (C4_locale_by_leading_segment "/en/guide/tools"). reflexivity.
  - apply (C4_locale_by_leading_segment "/guide/tools"). reflexivity.
Defined.

(** ** Prebuilt homepage modules *)

(** C6, as the specification states it, fails: the attributes passed to
    the render function reach the markup.  With no attributes the root
    homepage module emits [<div></div>]; with the attribute [id] set to
    [app] it emits a [div] that carries it. *)
Lemma C6_attrs_change_markup :
  Index._sfc_ssrRender ssrRenderAttrs tt [] tt [] tt tt tt tt
    = ["<div></div>"] /\
  EnIndex._sfc_ssrRender ssrRenderAttrs tt [] tt [] tt tt tt tt
    = ["<div></div>"] /\
  Index._sfc_ssrRender ssrRenderAttrs tt [] tt [("id", "app")] tt tt tt tt
    <> Index._sfc_ssrRender ssrRenderAttrs tt [] tt [] tt tt tt tt /\
  EnIndex._sfc_ssrRender ssrRenderAttrs tt [] tt [("id", "app")] tt tt tt tt
    <> EnIndex._sfc_ssrRender ssrRenderAttrs tt [] tt [] tt tt tt tt.
Proof. repeat split; try reflexivity; discriminate. Qed.

(** C6, amended.  Each homepage render function reads none of its
    arguments but the attributes and the output buffer: whatever
    context, parent, props, setup state, data and options two calls
    get, with the same attributes they append the same single chunk, an
    empty [div] that carries the rendered attributes, and they always
    return.  When the attributes render to nothing the chunk is
    [<div></div>]. *)
Theorem C6_render_reads_attrs_only {Attrs Value : Type}
    (renderAttrs : Attrs -> string) (_push : list string) (_attrs : Attrs)
    (c1 p1 a1 b1 d1 o1 c2 p2 a2 b2 d2 o2 : Value) :
  Index._sfc_ssrRender renderAttrs c1 _push p1 _attrs a1 b1 d1 o1
    = Index._sfc_ssrRender renderAttrs c2 _push p2 _attrs a2 b2 d2 o2 /\
  EnIndex._sfc_ssrRender renderAttrs c1 _push p1 _attrs a1 b1 d1 o1
    = EnIndex._sfc_ssrRender renderAttrs c2 _push p2 _attrs a2 b2 d2 o2 /\
  Index._sfc_ssrRender renderAttrs c1 _push p1 _attrs a1 b1 d1 o1
    = (_push ++ ["<div" +:+ renderAttrs _attrs +:+ "></div>"])%list /\
  EnIndex._sfc_ssrRender renderAttrs c1 _push p1 _attrs a1 b1 d1 o1
    = (_push ++ ["<div" +:+ renderAttrs _attrs +:+ "></div>"])%list /\
  (renderAttrs _attrs = "" ->
     Index._sfc_ssrRender renderAttrs c1 _push p1 _attrs a1 b1 d1 o1
       = (_push ++ ["<div></div>"])%list /\
     EnIndex._sfc_ssrRender renderAttrs c1 _push p1 _attrs a1 b1 d1 o1
       = (_push ++ ["<div></div>"])%list).
Proof.
  repeat (split; [reflexivity|]).
  unfold Index._sfc_ssrRender, EnIndex._sfc_ssrRender.
  by intros ->.
Qed.

Lemma C6_render_reads_attrs_only_witness :
  Index._sfc_ssrRender ssrRenderAttrs 1 [] 2 [] 3 4 5 6 = ["<div></div>"] /\
  EnIndex._sfc_ssrRender ssrRenderAttrs 1 [] 2 [] 3 4 5 6 = ["<div></div>"].
Proof.
  apply (C6_render_reads_attrs_only ssrRenderAttrs [] [] 1 2 3 4 5 6 6 5 4 3 2 1).
  reflexivity.
Defined.

(** ** Theme entry point *)

(** C8.  The [enhanceApp] hook of the exported theme returns normally
    and leaves the application it is given as it was: nothing is
    registered.  Apart from the hook the theme object holds the default
    theme it extends and the layout component that replaces the
    default one. *)
Theorem C8_enhanceApp_is_noop {Component ThemeT : Type}
    (DefaultTheme : ThemeT) (LayoutVue : Component) (app : Theme.App) :
  Theme.enhanceApp (Theme.theme DefaultTheme LayoutVue) app = (Theme.Normal, app) /\
  Theme.extends (Theme.theme DefaultTheme LayoutVue) = DefaultTheme /\
  Theme.Layout (Theme.theme DefaultTheme LayoutVue) = LayoutVue.
Proof. repeat split. Qed.

(** ** Link integrity at build time *)






(** * Further properties of the code *)

(** ** The [setup] wrapper of the prebuilt homepage modules *)

Lemma elem_of_setAdd (name n : string) (set : list string) :
  n ∈ setAdd name set <-> n = name \/ n ∈ set.
Proof.
  unfold setAdd. case_bool_decide as Hin.
  - split; [by right|]. by intros [->|?].
  - rewrite elem_of_app, list_elem_of_singleton. tauto.
Qed.

Lemma setAdd_prefix (name : string) (set : list string) :
  set `prefix_of` setAdd name set.
Proof.
  unfold setAdd. case_bool_decide; [done|]. by apply prefix_app_r.
Qed.

Lemma setAdd_member (name : string) (set : list string) :
  name ∈ set -> setAdd name set = set.
Proof. intros Hin. unfold setAdd. by rewrite bool_decide_eq_true_2. Qed.

Lemma setAdd_idemp (name : string) (set : list string) :
  setAdd name (setAdd name set) = setAdd name set.
Proof. apply setAdd_member, elem_of_setAdd. by left. Qed.

Lemma setAdd_swap (a b : string) (set : list string) :
  setAdd a (setAdd b set) ≡ₚ setAdd b (setAdd a set).
Proof.
  destruct (decide (a = b)) as [->|Hab]; [done|].
  unfold setAdd at 2 4.
  case_bool_decide as Hb; case_bool_decide as Ha.
  - by rewrite (setAdd_member a set Ha), (setAdd_member b set Hb).
  - rewrite (setAdd_member b (set ++ [a])) by (apply elem_of_app; by left).
    unfold setAdd. by rewrite bool_decide_eq_false_2.
  - rewrite (setAdd_member a (set ++ [b])) by (apply elem_of_app; by left).
    unfold setAdd. by rewrite bool_decide_eq_false_2.
  - unfold setAdd.
    rewrite !bool_decide_eq_false_2.
    + rewrite <- !app_assoc. apply Permutation_app_head. simpl. apply Permutation_swap.
    + intros [?|?%list_elem_of_singleton]%elem_of_app; congruence.
    + intros [?|?%list_elem_of_singleton]%elem_of_app; congruence.
Qed.

(** X1.  Running the [setup] of a homepage module registers the
    module's name in [ssrContext.modules], whether the set existed or
    not; the names registered before stay, in their order and before
    the new one, no other name appears, the rest of the context is
    untouched, and the call returns [undefined]. *)
Theorem X1_setup_registers_module {Props Ctx Rest Ret : Type}
    (props : Props) (ctx : Ctx) (ssr : SSRContext Rest) :
  let en := SfcSetup.setup_en (Ret := Ret) props ctx ssr in
  let rt := SfcSetup.setup_root (Ret := Ret) props ctx ssr in
  fst en = None /\ fst rt = None /\
  ssr_rest (snd en) = ssr_rest ssr /\ ssr_rest (snd rt) = ssr_rest ssr /\
  (exists s, modules (snd en) = Some s /\
     default [] (modules ssr) `prefix_of` s /\
     forall n, n ∈ s <-> n = "en/index.md" \/ n ∈ default [] (modules ssr)) /\
  (exists s, modules (snd rt) = Some s /\
     default [] (modules ssr) `prefix_of` s /\
     forall n, n ∈ s <-> n = "index.md" \/ n ∈ default [] (modules ssr)).
Proof.
  cbn. repeat (split; [reflexivity|]).
  split; (eexists; split; [reflexivity|]);
    (split; [apply setAdd_prefix|intros n; apply elem_of_setAdd]).
Qed.

(** X2.  Registering is idempotent: running a module's [setup] twice
    leaves the context as running it once does.  The two modules
    commute as far as membership goes: rendering the English homepage
    before the root one leaves a set with the same names as the other
    order, and the same rest of the context.  The order in which the
    set lists the names is the order of rendering, so on a context in
    which neither page is registered the two orders leave sets that
    iterate differently. *)
Theorem X2_setup_idempotent_commutes {Props Ctx Rest Ret : Type}
    (props : Props) (ctx : Ctx) (ssr : SSRContext Rest) :
  let en s := snd (SfcSetup.setup_en (Ret := Ret) props ctx s) in
  let rt s := snd (SfcSetup.setup_root (Ret := Ret) props ctx s) in
  en (en ssr) = en ssr /\ rt (rt ssr) = rt ssr /\
  default [] (modules (en (rt ssr))) ≡ₚ default [] (modules (rt (en ssr))) /\
  ssr_rest (en (rt ssr)) = ssr_rest (rt (en ssr)) /\
  ("en/index.md" ∉ default [] (modules ssr) ->
   "index.md" ∉ default [] (modules ssr) ->
   modules (en (rt ssr))
     = Some (default [] (modules ssr) ++ ["index.md"; "en/index.md"])%list /\
   modules (rt (en ssr))
     = Some (default [] (modules ssr) ++ ["en/index.md"; "index.md"])%list /\
   modules (en (rt ssr)) <> modules (rt (en ssr))).
Proof.
  cbn. unfold registerModule; cbn.
  split; [by rewrite setAdd_idemp|]. split; [by rewrite setAdd_idemp|].
  split; [apply setAdd_swap|]. split; [done|].
  intros Hen Hrt.
  assert (Hen' : setAdd "en/index.md" (setAdd "index.md" (default [] (modules ssr)))
                 = (default [] (modules ssr) ++ ["index.md"; "en/index.md"])%list).
  { unfold setAdd. rewrite (bool_decide_eq_false_2 _ Hrt).
    rewrite bool_decide_eq_false_2.
    - by rewrite <- app_assoc.
    - intros [?|?%list_elem_of_singleton]%elem_of_app; [done|discriminate]. }
  assert (Hrt' : setAdd "index.md" (setAdd "en/index.md" (default [] (modules ssr)))
                 = (default [] (modules ssr) ++ ["en/index.md"; "index.md"])%list).
  { unfold setAdd. rewrite (bool_decide_eq_false_2 _ Hen).
    rewrite bool_decide_eq_false_2.
    - by rewrite <- app_assoc.
    - intros [?|?%list_elem_of_singleton]%elem_of_app; [done|discriminate]. }
  rewrite Hen', Hrt'. split; [done|]. split; [done|].
  intros [= Heq]. apply app_inv_head in Heq. discriminate.
Qed.

Lemma X2_setup_idempotent_commutes_witness :
  modules (snd (SfcSetup.setup_en (Ret := unit) tt tt
                  (snd (SfcSetup.setup_root (Ret := unit) tt tt
                          (mkSSRContext None tt)))))
    = Some ["index.md"; "en/index.md"].
Proof.
  apply (X2_setup_idempotent_commutes (Ret := unit) tt tt (mkSSRContext None tt));
    cbn; apply not_elem_of_nil.
Defined.

(** ** Context compression *)

(** X3.  [compressHistory] returns a history at or under the threshold
    as it is.  Over the threshold it summarises the first half
    (rounded down) and keeps the rest: the result is one [system]
    message with the summary followed by the newer messages in their
    order, and the summarised and the kept messages together are the
    whole history.  When the model call fails, so does the function. *)
Theorem X3_compressHistory_cases (tokenCount : list Memory.Message -> Z)
    (THRESHOLD : Z) (summarize : list Memory.Message -> option string)
    (history : list Memory.Message) :
  let older := take (length history / 2) history in
  let newer := drop (length history / 2) history in
  ((tokenCount history <= THRESHOLD)%Z ->
     Memory.compressHistory tokenCount THRESHOLD summarize history = Some history) /\
  ((THRESHOLD < tokenCount history)%Z ->
     (older ++ newer)%list = history /\
     Memory.compressHistory tokenCount THRESHOLD summarize history
       = (fun summary =>
            Memory.mkMessage "system" ("Previous conversation summary: " +:+ summary)
            :: newer) <$> summarize older).
Proof.
  unfold Memory.compressHistory. split.
  - intros H. by rewrite (proj2 (Z.ltb_ge _ _) H).
  - intros H. rewrite (proj2 (Z.ltb_lt _ _) H).
    split; [apply take_drop|]. by destruct (summarize _).
Qed.

Lemma X3_compressHistory_cases_witness :
  Memory.compressHistory (fun h => Z.of_nat (length h)) 2
      (fun _ => Some "s")
      [Memory.mkMessage "user" "a"; Memory.mkMessage "assistant" "b";
       Memory.mkMessage "user" "c"]
    = Some [Memory.mkMessage "system" "Previous conversation summary: s";
            Memory.mkMessage "assistant" "b"; Memory.mkMessage "user" "c"] /\
  Memory.compressHistory (fun h => Z.of_nat (length h)) 2
      (fun _ => Some "s") [Memory.mkMessage "user" "a"]
    = Some [Memory.mkMessage "user" "a"].
Proof.
  split.
  - apply (X3_compressHistory_cases (fun h => Z.of_nat (length h)) 2
             (fun _ => Some "s")
             [Memory.mkMessage "user" "a"; Memory.mkMessage "assistant" "b";
              Memory.mkMessage "user" "c"]).
    reflexivity.
  - apply (X3_compressHistory_cases (fun h => Z.of_nat (length h)) 2
             (fun _ => Some "s") [Memory.mkMessage "user" "a"]).
    discriminate.
Defined.

(** X4.  Compression makes a history shorter only from four messages
    on: a result of [compressHistory] has fewer messages than the
    history exactly when the history was over the threshold and had at
    least four messages.  A history of one message that is over the
    threshold comes back with two. *)
Theorem X4_compressHistory_shortens (tokenCount : list Memory.Message -> Z)
    (THRESHOLD : Z) (summarize : list Memory.Message -> option string)
    (history result : list Memory.Message) :
  Memory.compressHistory tokenCount THRESHOLD summarize history = Some result ->
  (length result < length history <->
     (THRESHOLD < tokenCount history)%Z /\ 4 <= length history) /\
  ((THRESHOLD < tokenCount history)%Z -> length history = 1 -> length result = 2).
Proof.
  unfold Memory.compressHistory.
  destruct (Z.ltb_spec THRESHOLD (tokenCount history)) as [Hlt|Hge].
  - destruct (summarize _) as [summary|]; [|discriminate].
    intros [= <-]. rewrite length_cons, length_drop.
    pose proof (Nat.div_mod_eq (length history) 2) as Hdiv.
    pose proof (Nat.mod_upper_bound (length history) 2 ltac:(lia)) as Hmod.
    change (fst (Nat.divmod (length history) 1 0 1)) with (length history / 2).
    split; [split; [intros; split; lia | intros [_ ?]; lia]|].
    intros _ Hone. rewrite Hone. reflexivity.
  - intros [= <-]. split; [split; [lia|intros [? _]; lia]|intros; lia].
Qed.

Lemma X4_compressHistory_shortens_witness :
  length [Memory.mkMessage "system" "Previous conversation summary: s";
          Memory.mkMessage "user" "a"] = 2.
Proof.
  apply (X4_compressHistory_shortens (fun h => Z.of_nat (length h)) 0
           (fun _ => Some "s") [Memory.mkMessage "user" "a"]
           [Memory.mkMessage "system" "Previous conversation summary: s";
            Memory.mkMessage "user" "a"]); reflexivity.
Defined.

(** ** Role based authorization *)

Lemma dedupeFrom_keys (seen : gset string) (perms : list RBAC.Permission) :
  NoDup (map RBAC.permKey (RBAC.dedupeFrom seen perms)) /\
  (forall perm, perm ∈ RBAC.dedupeFrom seen perms -> RBAC.permKey perm ∉ seen) /\
  sublist (RBAC.dedupeFrom seen perms) perms /\
  (forall perm, perm ∈ perms ->
     RBAC.permKey perm ∈ seen \/
     RBAC.permKey perm ∈ map RBAC.permKey (RBAC.dedupeFrom seen perms)).
Proof.
  revert seen; induction perms as [|p perms IH]; intros seen; simpl.
  - split; [constructor|]. split; [by intros ? ?%elem_of_nil|].
    split; [constructor|by intros ? ?%elem_of_nil].
  - case_bool_decide as Hseen.
    + destruct (IH seen) as (Hnd & Hfresh & Hsub & Hall).
      split; [done|]. split; [done|]. split; [by apply sublist_cons|].
      intros q [->|Hq]%elem_of_cons; [by left|by apply Hall].
    + destruct (IH ({[RBAC.permKey p]} ∪ seen)) as (Hnd & Hfresh & Hsub & Hall).
      split; [|split; [|split]].
      * simpl. constructor; [|done].
        intros (q & Hk & Hq)%list_elem_of_fmap.
        apply Hfresh in Hq. apply Hq, elem_of_union. left.
        by apply elem_of_singleton.
      * intros q [->|Hq]%elem_of_cons; [done|].
        apply Hfresh in Hq. intros Hin. apply Hq, elem_of_union. by right.
      * by apply sublist_skip.
      * intros q [->|Hq]%elem_of_cons; [right; simpl; left|].
        destruct (Hall q Hq) as [Hin|Hin]; [|right; simpl; by right].
        apply elem_of_union in Hin as [->%elem_of_singleton|Hin];
          [right; simpl; left|by left].
Qed.

Lemma dedupeFrom_fixed (seen : gset string) (perms : list RBAC.Permission) :
  NoDup (map RBAC.permKey perms) ->
  (forall perm, perm ∈ perms -> RBAC.permKey perm ∉ seen) ->
  RBAC.dedupeFrom seen perms = perms.
Proof.
  revert seen; induction perms as [|p perms IH]; intros seen Hnd Hfresh; [done|].
  simpl. apply NoDup_cons in Hnd as [Hp Hnd].
  rewrite bool_decide_eq_false_2 by (apply Hfresh; left).
  f_equal. apply IH; [done|].
  intros q Hq [Heq%elem_of_singleton|Hin]%elem_of_union.
  - apply Hp, list_elem_of_fmap. by exists q.
  - by apply (Hfresh q); [right|].
Qed.

Lemma dedupeFrom_app (seen : gset string) (l1 l2 : list RBAC.Permission) :
  RBAC.dedupeFrom seen (l1 ++ l2)
    = (RBAC.dedupeFrom seen l1 ++
       RBAC.dedupeFrom (list_to_set (map RBAC.permKey l1) ∪ seen) l2)%list.
Proof.
  revert seen; induction l1 as [|p l1 IH]; intros seen; simpl.
  - by rewrite (left_id_L ∅ (∪)).
  - case_bool_decide as Hseen.
    + rewrite IH. do 2 f_equal. apply set_eq. intros x.
      rewrite !elem_of_union, elem_of_singleton. split; [tauto|].
      intros [[->|?]|?]; tauto.
    + simpl. rewrite IH. do 3 f_equal. apply set_eq. intros x.
      rewrite !elem_of_union, elem_of_singleton. tauto.
Qed.

Lemma dedupe_seen_keys (before : list RBAC.Permission) (k : string) :
  k ∈ (list_to_set (map RBAC.permKey before) ∪ ∅ : gset string) <->
  k ∈ map RBAC.permKey before.
Proof. by rewrite (right_id_L ∅ (∪)), elem_of_list_to_set. Qed.

(** X5.  [dedupePermissions] keeps, in their order, the first
    permission of every [resource:action:scope] key and drops the
    later ones.  Going through the list from the left, a permission is
    appended to the result exactly when its key has not occurred
    before: the first permission of a key stands in the result right
    after what the permissions before it leave, and a permission whose
    key occurred before leaves the result as if it were not in the
    list.  So the result is a sublist of the input, no key occurs in
    it twice, every key of the input occurs in it, and a second pass
    changes nothing more. *)
Theorem X5_dedupePermissions_first_per_key (perms : list RBAC.Permission) :
  sublist (RBAC.dedupePermissions perms) perms /\
  NoDup (map RBAC.permKey (RBAC.dedupePermissions perms)) /\
  (forall perm, perm ∈ perms ->
     RBAC.permKey perm ∈ map RBAC.permKey (RBAC.dedupePermissions perms)) /\
  hd_error (RBAC.dedupePermissions perms) = hd_error perms /\
  RBAC.dedupePermissions (RBAC.dedupePermissions perms)
    = RBAC.dedupePermissions perms /\
  RBAC.dedupePermissions [] = [] /\
  (forall before perm,
     RBAC.dedupePermissions (before ++ [perm])
       = (RBAC.dedupePermissions before ++
          if bool_decide (RBAC.permKey perm ∈ map RBAC.permKey before)
          then [] else [perm])%list) /\
  (forall before perm after, perms = (before ++ perm :: after)%list ->
     (RBAC.permKey perm ∉ map RBAC.permKey before ->
      exists rest,
        RBAC.dedupePermissions perms
          = (RBAC.dedupePermissions before ++ perm :: rest)%list) /\
     (RBAC.permKey perm ∈ map RBAC.permKey before ->
      RBAC.dedupePermissions perms
        = RBAC.dedupePermissions (before ++ after))).
Proof.
  unfold RBAC.dedupePermissions.
  destruct (dedupeFrom_keys ∅ perms) as (Hnd & _ & Hsub & Hall).
  split; [done|]. split; [done|]. split; [|split; [|split; [|split; [|split]]]].
  - intros perm Hp. destruct (Hall perm Hp) as [Hin|Hin]; [|done].
    by apply not_elem_of_empty in Hin.
  - destruct perms as [|p perms]; [done|]. simpl.
    by rewrite bool_decide_eq_false_2 by apply not_elem_of_empty.
  - apply dedupeFrom_fixed; [done|]. intros ? _. apply not_elem_of_empty.
  - done.
  - intros before perm. rewrite dedupeFrom_app. f_equal. simpl.
    by rewrite (bool_decide_ext _ _ (dedupe_seen_keys before (RBAC.permKey perm))).
  - intros before perm after ->. rewrite dedupeFrom_app. simpl. split.
    + intros Hfresh.
      rewrite bool_decide_eq_false_2 by (by rewrite dedupe_seen_keys).
      by eexists.
    + intros Hdup.
      rewrite bool_decide_eq_true_2 by (by rewrite dedupe_seen_keys).
      by rewrite dedupeFrom_app.
Qed.

Lemma X5_dedupePermissions_first_per_key_witness :
  RBAC.permKey (RBAC.mkPermission "agent" "read" "own" (Some "c"))
    ∈ map RBAC.permKey
        (RBAC.dedupePermissions
           [RBAC.mkPermission "agent" "read" "own" None;
            RBAC.mkPermission "agent" "read" "own" (Some "c")]) /\
  RBAC.dedupePermissions
    [RBAC.mkPermission "tool" "execute" "own" None;
     RBAC.mkPermission "agent" "read" "own" None;
     RBAC.mkPermission "agent" "read" "own" (Some "c")]
  = RBAC.dedupePermissions
      [RBAC.mkPermission "tool" "execute" "own" None;
       RBAC.mkPermission "agent" "read" "own" None].
Proof.
  split.
  - apply (X5_dedupePermissions_first_per_key
             [RBAC.mkPermission "agent" "read" "own" None;
              RBAC.mkPermission "agent" "read" "own" (Some "c")]).
    apply list_elem_of_In. simpl. tauto.
  - destruct (X5_dedupePermissions_first_per_key
                [RBAC.mkPermission "tool" "execute" "own" None;
                 RBAC.mkPermission "agent" "read" "own" None;
                 RBAC.mkPermission "agent" "read" "own" (Some "c")])
      as (_ & _ & _ & _ & _ & _ & _ & Hplace).
    apply (Hplace [RBAC.mkPermission "tool" "execute" "own" None;
                   RBAC.mkPermission "agent" "read" "own" None]
                  (RBAC.mkPermission "agent" "read" "own" (Some "c")) []);
      [reflexivity|].
    apply list_elem_of_In. simpl. tauto.
Defined.

Lemma permissionMatches_refl (perm : RBAC.Permission) :
  RBAC.permissionMatches perm perm = true.
Proof.
  unfold RBAC.permissionMatches, RBAC.evaluateCondition.
  rewrite !String.eqb_refl, !andb_false_r.
  destruct (RBAC.truthy _); simpl; first [apply String.eqb_refl | done].
Qed.

Lemma reachable_userRoles (st : RBAC.State) :
  RBAC.reachable st -> RBAC.userRoles st = ∅.
Proof. induction 1; done. Qed.

(** X6.  No method of [RBACAuthorizationSystem] assigns a role, so in
    every state a new instance can reach the roles of the constructor
    ([admin], [user], [viewer]) grant nothing: a user has no role, a
    check is decided by the user's direct permissions alone, and a
    user without direct permissions is refused every request. *)
Theorem X6_roles_never_assigned (st : RBAC.State) (userId : string)
    (requested : RBAC.Permission) :
  RBAC.reachable st ->
  RBAC.userRoles st !! userId = None /\
  RBAC.getUserPermissions st userId
    = RBAC.dedupePermissions (default [] (RBAC.permissions st !! userId)) /\
  (default [] (RBAC.permissions st !! userId) = [] ->
   RBAC.checkPermission st userId requested = false).
Proof.
  intros Hst. pose proof (reachable_userRoles st Hst) as Hroles.
  assert (Hget : RBAC.getUserPermissions st userId
                 = RBAC.dedupePermissions (default [] (RBAC.permissions st !! userId))).
  { unfold RBAC.getUserPermissions. rewrite Hroles, lookup_empty. simpl.
    by rewrite app_nil_r. }
  split; [by rewrite Hroles, lookup_empty|]. split; [done|].
  intros Hnone. unfold RBAC.checkPermission. by rewrite Hget, Hnone.
Qed.

Lemma X6_roles_never_assigned_witness :
  RBAC.checkPermission RBAC.init "root"
    (RBAC.mkPermission "agent" "read" "global" None) = false.
Proof.
  apply (X6_roles_never_assigned RBAC.init "root"
           (RBAC.mkPermission "agent" "read" "global" None)
           RBAC.reachable_init).
  reflexivity.
Defined.

Lemma dedupeFrom_keeps (seen : gset string) (before after : list RBAC.Permission)
    (perm : RBAC.Permission) :
  RBAC.permKey perm ∉ seen ->
  (forall q, q ∈ before -> RBAC.permKey q <> RBAC.permKey perm) ->
  perm ∈ RBAC.dedupeFrom seen (before ++ perm :: after).
Proof.
  revert seen; induction before as [|b before IH]; intros seen Hseen Hbefore; simpl.
  - rewrite bool_decide_eq_false_2 by done. left.
  - assert (Hrec : forall seen', RBAC.permKey perm ∉ seen' ->
                     perm ∈ RBAC.dedupeFrom seen' (before ++ perm :: after)).
    { intros seen' H'. apply IH; [done|]. intros q Hq. apply Hbefore. by right. }
    case_bool_decide; [by apply Hrec|]. right. apply Hrec.
    intros [Hb%elem_of_singleton|Hin]%elem_of_union; [|done].
    apply (Hbefore b); [left|done].
Qed.

Lemma dedupeFrom_drops (seen : gset string) (before after : list RBAC.Permission)
    (perm : RBAC.Permission) :
  RBAC.permKey perm ∈ seen \/ RBAC.permKey perm ∈ map RBAC.permKey before ->
  RBAC.dedupeFrom seen (before ++ perm :: after)
    = RBAC.dedupeFrom seen (before ++ after).
Proof.
  revert seen; induction before as [|b before IH]; intros seen Hshadow; simpl.
  - destruct Hshadow as [Hseen|Hin]; [|by apply elem_of_nil in Hin].
    by rewrite bool_decide_eq_true_2.
  - case_bool_decide as Hb.
    + apply IH. destruct Hshadow as [?|[->|?]%elem_of_cons]; auto.
    + f_equal. apply IH.
      destruct Hshadow as [?|[->|?]%elem_of_cons]; [left|left|by right].
      * apply elem_of_union. by right.
      * apply elem_of_union. left. by apply elem_of_singleton.
Qed.

(** X7.  Granting takes effect for a new key: when the user holds no
    direct permission with the [resource:action:scope] key of
    [permission], then after [addPermission] the check of that very
    permission succeeds. *)
Theorem X7_add_then_check (st : RBAC.State) (userId : string)
    (permission : RBAC.Permission) :
  (forall q, q ∈ default [] (RBAC.permissions st !! userId) ->
             RBAC.permKey q <> RBAC.permKey permission) ->
  RBAC.checkPermission (RBAC.addPermission st userId permission) userId permission
    = true.
Proof.
  intros Hfresh. unfold RBAC.checkPermission. apply existsb_exists.
  exists permission. split; [|apply permissionMatches_refl].
  apply list_elem_of_In.
  unfold RBAC.getUserPermissions, RBAC.addPermission, RBAC.dedupePermissions; simpl.
  rewrite lookup_insert_eq; simpl. rewrite <- app_assoc. simpl.
  apply dedupeFrom_keeps; [apply not_elem_of_empty|done].
Qed.

Lemma X7_add_then_check_witness :
  RBAC.checkPermission
    (RBAC.addPermission RBAC.init "ann"
       (RBAC.mkPermission "tool" "execute" "session" (Some "c")))
    "ann" (RBAC.mkPermission "tool" "execute" "session" (Some "c")) = true.
Proof.
  apply (X7_add_then_check RBAC.init "ann"
           (RBAC.mkPermission "tool" "execute" "session" (Some "c"))).
  intros q Hq. by apply elem_of_nil in Hq.
Defined.

(** X8.  A second grant under a key the user already holds directly is
    lost: when the user has a direct permission with the same
    [resource:action:scope] key, [addPermission] changes neither the
    effective permissions nor the outcome of any check, even when the
    two permissions carry different conditions.  So a user who holds
    [tool:execute:session] under condition [a] and is granted it under
    condition [b] is still refused the request with condition [b]. *)
Theorem X8_add_shadowed_by_earlier_key (st : RBAC.State) (userId : string)
    (permission q : RBAC.Permission) (requested : RBAC.Permission) :
  q ∈ default [] (RBAC.permissions st !! userId) ->
  RBAC.permKey q = RBAC.permKey permission ->
  RBAC.getUserPermissions (RBAC.addPermission st userId permission) userId
    = RBAC.getUserPermissions st userId /\
  RBAC.checkPermission (RBAC.addPermission st userId permission) userId requested
    = RBAC.checkPermission st userId requested.
Proof.
  intros Hq Hkey.
  assert (Hget : RBAC.getUserPermissions (RBAC.addPermission st userId permission) userId
                 = RBAC.getUserPermissions st userId).
  { unfold RBAC.getUserPermissions, RBAC.addPermission, RBAC.dedupePermissions; simpl.
    rewrite lookup_insert_eq; simpl. rewrite <- app_assoc. simpl.
    apply dedupeFrom_drops. right. apply list_elem_of_fmap. by exists q. }
  split; [done|]. unfold RBAC.checkPermission. by rewrite Hget.
Qed.

Lemma X8_add_shadowed_by_earlier_key_witness :
  let held := RBAC.mkPermission "tool" "execute" "session" (Some "a") in
  let granted := RBAC.mkPermission "tool" "execute" "session" (Some "b") in
  let st := RBAC.addPermission RBAC.init "ann" held in
  RBAC.checkPermission (RBAC.addPermission st "ann" granted) "ann" granted = false.
Proof.
  intros held granted st.
  rewrite (proj2 (X8_add_shadowed_by_earlier_key st "ann" granted held granted
                    ltac:(vm_compute; left) eq_refl)).
  reflexivity.
Defined.

(** X9.  [removePermission] takes away every direct permission of the
    user with the resource, action and scope of the given one, whatever
    its condition, keeps the others in their order, and leaves the
    other users and the roles alone.  Granting a permission whose
    resource, action and scope the user did not hold and removing it
    again gives back the user's list. *)
Theorem X9_removePermission_by_triple (st : RBAC.State) (userId : string)
    (permission : RBAC.Permission) :
  let st' := RBAC.removePermission st userId permission in
  let before := default [] (RBAC.permissions st !! userId) in
  let after := default [] (RBAC.permissions st' !! userId) in
  (forall q, q ∈ after <->
             q ∈ before /\ RBAC.permissionsEqual q permission = false) /\
  sublist after before /\
  (forall other, other <> userId ->
     RBAC.permissions st' !! other = RBAC.permissions st !! other) /\
  RBAC.roles st' = RBAC.roles st /\ RBAC.userRoles st' = RBAC.userRoles st /\
  ((forall q, q ∈ before -> RBAC.permissionsEqual q permission = false) ->
   default [] (RBAC.permissions
                 (RBAC.removePermission (RBAC.addPermission st userId permission)
                                        userId permission) !! userId)
     = before).
Proof.
  cbn zeta. unfold RBAC.removePermission, RBAC.addPermission; simpl.
  rewrite !lookup_insert_eq; simpl.
  split; [|split; [|split; [|split; [|split]]]]; try done.
  - intros q. rewrite list_elem_of_In, filter_In, <- list_elem_of_In.
    by rewrite negb_true_iff.
  - induction (default [] (RBAC.permissions st !! userId)) as [|x l IH]; simpl;
      [constructor|].
    destruct (negb _); [by apply sublist_skip|by apply sublist_cons].
  - intros other Hne. by rewrite lookup_insert_ne.
  - intros Hfresh. rewrite List.filter_app. simpl.
    assert (Hself : RBAC.permissionsEqual permission permission = true).
    { unfold RBAC.permissionsEqual. by rewrite !String.eqb_refl. }
    rewrite Hself. simpl. rewrite app_nil_r.
    induction (default [] (RBAC.permissions st !! userId)) as [|x l IH]; [done|].
    simpl. rewrite (Hfresh x) by left. simpl. f_equal.
    apply IH. intros q Hq. apply Hfresh. by right.
Qed.

Lemma X9_removePermission_by_triple_witness :
  let p := RBAC.mkPermission "agent" "write" "own" None in
  default [] (RBAC.permissions
                (RBAC.removePermission (RBAC.addPermission RBAC.init "ann" p)
                                       "ann" p) !! "ann") = [].
Proof.
  intros p.
  apply (X9_removePermission_by_triple RBAC.init "ann" p).
  intros q Hq. by apply elem_of_nil in Hq.
Defined.

(** ** Authentication *)

Lemma checkIPWhitelist_first_rule (st : Authn.State) (fw : Authn.Firewall)
    (addr : string) :
  Authn.firewall st = Some fw -> addr <> "" ->
  Authn.allowed (Authn.checkIPWhitelist st (Some addr))
    = match Authn.rules fw with
      | [] => false
      | rule :: _ => match Authn.rule_action rule with
                     | Authn.allow => true
                     | Authn.deny => false
                     end
      end.
Proof.
  intros Hfw Haddr. unfold Authn.checkIPWhitelist. rewrite Hfw. simpl.
  rewrite (proj2 (String.eqb_neq addr "") Haddr). simpl.
  destruct (Authn.rules fw) as [|[c []] rs]; reflexivity.
Qed.

(** X10.  [ipInRange] answers [true] for every address and range, so
    [checkIPWhitelist] never gets past the first rule: with a firewall
    configured and an address given, the address is allowed exactly
    when the first rule says [allow], whatever the address, the ranges
    and the later rules are; with no rule at all it is refused.  A
    request without an address, or a configuration without a firewall,
    is always allowed. *)
Theorem X10_first_firewall_rule_decides (st : Authn.State) (fw : Authn.Firewall)
    (addr : string) :
  Authn.firewall st = Some fw -> addr <> "" ->
  Authn.allowed (Authn.checkIPWhitelist st (Some addr))
    = match Authn.rules fw with
      | [] => false
      | rule :: _ => match Authn.rule_action rule with
                     | Authn.allow => true
                     | Authn.deny => false
                     end
      end /\
  Authn.allowed (Authn.checkIPWhitelist st None) = true /\
  Authn.allowed (Authn.checkIPWhitelist st (Some "")) = true.
Proof.
  intros Hfw Haddr. split; [by apply checkIPWhitelist_first_rule|].
  unfold Authn.checkIPWhitelist. by rewrite Hfw.
Qed.

Lemma X10_first_firewall_rule_decides_witness :
  Authn.allowed
    (Authn.checkIPWhitelist
       (Authn.init (Some (Authn.mkFirewall true
                            [Authn.mkRule "10.0.0.0/8" Authn.deny;
                             Authn.mkRule "192.168.1.0/24" Authn.allow])))
       (Some "192.168.1.7")) = false.
Proof.
  apply (X10_first_firewall_rule_decides
           (Authn.init (Some (Authn.mkFirewall true
                                [Authn.mkRule "10.0.0.0/8" Authn.deny;
                                 Authn.mkRule "192.168.1.0/24" Authn.allow])))
           (Authn.mkFirewall true
              [Authn.mkRule "10.0.0.0/8" Authn.deny;
               Authn.mkRule "192.168.1.0/24" Authn.allow])
           "192.168.1.7"); [reflexivity|discriminate].
Defined.

Lemma validateSession_unknown (t : string) (now : Z) (st : Authn.State) :
  Authn.sessions st !! t = None ->
  Authn.validateSession (Some t) now st = (None, st).
Proof. intros H. unfold Authn.validateSession. by rewrite H. Qed.

Lemma validateSession_live (t : string) (now : Z) (st : Authn.State)
    (s : Authn.Session) :
  Authn.sessions st !! t = Some s -> (now <= Authn.expiresAt s)%Z ->
  Authn.validateSession (Some t) now st
    = (Some (Authn.mkSession (Authn.session_id s) (Authn.userId s)
               (Authn.createdAt s) (now + Authn.DAY)
               (Authn.session_permissions s) (Authn.ip s)),
       Authn.mkState
         (<[t := Authn.mkSession (Authn.session_id s) (Authn.userId s)
                   (Authn.createdAt s) (now + Authn.DAY)
                   (Authn.session_permissions s) (Authn.ip s)]> (Authn.sessions st))
         (Authn.users st) (Authn.firewall st)).
Proof.
  intros H Hlive. unfold Authn.validateSession. rewrite H.
  by rewrite (proj2 (Z.ltb_ge _ _) Hlive).
Qed.

Lemma validateSession_expired (t : string) (now : Z) (st : Authn.State)
    (s : Authn.Session) :
  Authn.sessions st !! t = Some s -> (Authn.expiresAt s < now)%Z ->
  Authn.validateSession (Some t) now st
    = (None, Authn.mkState (delete t (Authn.sessions st))
               (Authn.users st) (Authn.firewall st)).
Proof.
  intros H Hexp. unfold Authn.validateSession. rewrite H.
  by rewrite (proj2 (Z.ltb_lt _ _) Hexp).
Qed.

(** X11.  The expiry of a session slides: a successful
    [validateSession] at the time [t1] stores the session with the
    expiry [t1 + 24h], so the next validation succeeds, for the same
    user, exactly when it comes no later than [t1 + 24h]; a later one
    is refused and removes the session. *)
Theorem X11_session_expiry_slides (t : string) (t1 t2 : Z) (st st1 : Authn.State)
    (s1 : Authn.Session) :
  Authn.validateSession (Some t) t1 st = (Some s1, st1) ->
  Authn.expiresAt s1 = (t1 + Authn.DAY)%Z /\
  Authn.sessions st1 !! t = Some s1 /\
  ((t2 <= t1 + Authn.DAY)%Z ->
     exists s2, fst (Authn.validateSession (Some t) t2 st1) = Some s2 /\
                Authn.userId s2 = Authn.userId s1 /\
                Authn.expiresAt s2 = (t2 + Authn.DAY)%Z) /\
  ((t1 + Authn.DAY < t2)%Z ->
     fst (Authn.validateSession (Some t) t2 st1) = None /\
     Authn.sessions (snd (Authn.validateSession (Some t) t2 st1)) !! t = None).
Proof.
  intros Hv.
  assert (Authn.sessions st1 !! t = Some s1 /\
          Authn.expiresAt s1 = (t1 + Authn.DAY)%Z) as [Hst1 Hexp].
  { unfold Authn.validateSession in Hv.
    destruct (Authn.sessions st !! t) as [s|] eqn:Hs; [|discriminate].
    destruct (Z.ltb_spec (Authn.expiresAt s) t1); [discriminate|].
    injection Hv as <- <-. split; [apply lookup_insert_eq|done]. }
  split; [done|]. split; [done|]. split.
  - intros Hle.
    rewrite (validateSession_live t t2 st1 s1 Hst1) by (by rewrite Hexp).
    by eexists.
  - intros Hgt.
    rewrite (validateSession_expired t t2 st1 s1 Hst1) by (by rewrite Hexp).
    split; [done|]. apply lookup_delete_eq.
Qed.

Lemma X11_session_expiry_slides_witness :
  let s := Authn.mkSession "tok" "default-user" 0 1000 [] "unknown" in
  let st := Authn.mkState {["tok" := s]} Authn.loadUsers None in
  fst (Authn.validateSession (Some "tok") (500 + Authn.DAY + 1)
         (snd (Authn.validateSession (Some "tok") 500 st))) = None.
Proof.
  intros s st.
  apply (X11_session_expiry_slides "tok" 500 (500 + Authn.DAY + 1) st
           (snd (Authn.validateSession (Some "tok") 500 st))
           (Authn.mkSession "tok" "default-user" 0 (500 + Authn.DAY) [] "unknown")).
  - reflexivity.
  - reflexivity.
Defined.

(** X12.  An expired session cannot come back: once [validateSession]
    has met a session after its expiry, the session is gone, and every
    later validation of the token is refused, at whatever time it is
    made, without changing the state again.  The sessions of the other
    tokens are left as they were. *)
Theorem X12_expired_session_removed (t : string) (now later : Z)
    (st : Authn.State) (s : Authn.Session) :
  Authn.sessions st !! t = Some s -> (Authn.expiresAt s < now)%Z ->
  let st' := snd (Authn.validateSession (Some t) now st) in
  fst (Authn.validateSession (Some t) now st) = None /\
  Authn.validateSession (Some t) later st' = (None, st') /\
  (forall other, other <> t ->
     Authn.sessions st' !! other = Authn.sessions st !! other).
Proof.
  intros Hs Hexp. rewrite (validateSession_expired t now st s Hs Hexp).
  cbn [fst snd]. split; [done|]. split.
  - apply validateSession_unknown. apply lookup_delete_eq.
  - intros other Hne. apply lookup_delete_ne. congruence.
Qed.

Lemma X12_expired_session_removed_witness :
  let s := Authn.mkSession "tok" "default-user" 0 1000 [] "unknown" in
  let st := Authn.mkState {["tok" := s]} Authn.loadUsers None in
  fst (Authn.validateSession (Some "tok") 1001 st) = None.
Proof.
  intros s st.
  apply (X12_expired_session_removed "tok" 1001 0 st s); [reflexivity|reflexivity].
Defined.

(** X13.  After [revokeSession] the token validates at no time, and
    the attempt changes nothing; the other sessions are untouched by
    the revocation. *)
Theorem X13_revoked_session_invalid (t : string) (now : Z) (st : Authn.State) :
  let st' := Authn.revokeSession t st in
  Authn.validateSession (Some t) now st' = (None, st') /\
  (forall other, other <> t ->
     Authn.sessions st' !! other = Authn.sessions st !! other) /\
  Authn.users st' = Authn.users st.
Proof.
  cbn zeta. split; [|split; [|done]].
  - apply validateSession_unknown. apply lookup_delete_eq.
  - intros other Hne. apply lookup_delete_ne. congruence.
Qed.

Lemma find_snd_elem {A B : Type} (f : A * B -> bool) (l : list (A * B)) (b : B) :
  snd <$> find f l = Some b -> exists a, find f l = Some (a, b).
Proof. destruct (find f l) as [[a b']|]; [intros [= ->]; by exists a|discriminate]. Qed.

Lemma validatePassword_Some (st : Authn.State) (pw : option string) (user : Authn.User) :
  Authn.validatePassword st pw = Some user ->
  exists p, pw = Some p /\ Authn.hashedPassword user = p.
Proof.
  unfold Authn.validatePassword. intros [a Hfind]%find_snd_elem.
  apply find_some in Hfind as [_ Hver]. simpl in Hver.
  destruct pw as [p|]; [|discriminate]. exists p. split; [done|].
  symmetry. by apply String.eqb_eq.
Qed.

Lemma validateApiKey_Some (st : Authn.State) (key : option string) (user : Authn.User) :
  Authn.validateApiKey st key = Some user -> exists k, key = Some k.
Proof.
  unfold Authn.validateApiKey. intros [a Hfind]%find_snd_elem.
  apply find_some in Hfind as [_ Hver]. simpl in Hver.
  destruct key as [k|]; [by exists k|]. unfold Authn.hashApiKey in Hver.
  by destruct (Authn.apiKeys user).
Qed.

(** X14.  [createSession] either throws [Invalid credentials] and
    leaves the state as it was, or stores a session of the user the
    credentials belong to, under the generated id and valid for a day;
    that session then validates, for the same user and with the same
    permissions, at every time up to a day after its creation. *)
Theorem X14_createSession_round_trip (decodeJWT : string -> option string)
    (credentials : Authn.Credentials) (now later : Z) (rnd : string)
    (st : Authn.State) :
  match Authn.createSession decodeJWT credentials now rnd st with
  | (Authn.Thrown msg, st') =>
      msg = "Invalid credentials" /\ st' = st /\
      Authn.validateCredentials decodeJWT st credentials = None
  | (Authn.Ok s, st') =>
      exists user,
        Authn.validateCredentials decodeJWT st credentials = Some user /\
        Authn.session_id s = Authn.generateSessionId now rnd /\
        Authn.userId s = Authn.user_id user /\
        Authn.expiresAt s = (now + Authn.DAY)%Z /\
        Authn.sessions st' !! Authn.session_id s = Some s /\
        ((later <= now + Authn.DAY)%Z ->
         exists s2,
           fst (Authn.validateSession (Some (Authn.session_id s)) later st') = Some s2 /\
           Authn.userId s2 = Authn.user_id user /\
           Authn.session_permissions s2 = Authn.user_permissions user)
  end.
Proof.
  unfold Authn.createSession.
  destruct (Authn.validateCredentials decodeJWT st credentials) as [user|]; [|done].
  exists user. repeat (split; [done|]).
  split; [apply lookup_insert_eq|].
  intros Hle. eexists.
  rewrite (validateSession_live _ later _ _ (lookup_insert_eq _ _ _)) by done.
  done.
Qed.

Lemma X14_createSession_round_trip_witness :
  exists s2,
    fst (Authn.validateSession (Some "sess_1000_k3x9") (1000 + Authn.DAY)
           (snd (Authn.createSession (fun _ => None)
                   (Authn.mkCredentials Authn.apikey "default-api-key" None)
                   1000 "k3x9" (Authn.init None)))) = Some s2 /\
    Authn.userId s2 = "default-user" /\
    Authn.session_permissions s2 = [RBAC.mkPermission "*" "*" "global" None].
Proof.
  pose proof (X14_createSession_round_trip (fun _ => None)
                (Authn.mkCredentials Authn.apikey "default-api-key" None)
                1000 (1000 + Authn.DAY) "k3x9" (Authn.init None)) as H.
  vm_compute in H. destruct H as (user & [= <-] & _ & _ & _ & _ & H).
  vm_compute. apply H. discriminate.
Defined.

Section Authenticate.

Variable decodeJWT : string -> option string.
Variable base64Decode : string -> string.
Variable toLowerCase : string -> string.

Lemma answerBacked_unchanged (now : Z) (st : Authn.State) (error : string) :
  Authn.answerBacked now st st (Authn.Denied error).
Proof. intros t. by right. Qed.

Lemma createSession_backed (credentials : Authn.Credentials) (now : Z)
    (rnd : string) (st st' : Authn.State) (s : Authn.Session) :
  Authn.wellKeyed st ->
  Authn.createSession decodeJWT credentials now rnd st = (Authn.Ok s, st') ->
  Authn.wellKeyed st' /\
  Authn.sessions st' !! Authn.session_id s = Some s /\
  Authn.expiresAt s = (now + Authn.DAY)%Z /\
  exists user, Authn.validateCredentials decodeJWT st credentials = Some user /\
               Authn.userId s = Authn.user_id user /\
               Authn.session_permissions s = Authn.user_permissions user.
Proof.
  intros Hwk. unfold Authn.createSession.
  destruct (Authn.validateCredentials decodeJWT st credentials) as [user|];
    [|discriminate].
  intros [= <- <-]. cbn. split; [|split; [apply lookup_insert_eq|]].
  - intros t s. cbn. destruct (decide (t = Authn.generateSessionId now rnd)) as [->|Hne].
    + rewrite lookup_insert_eq. by intros [= <-].
    + rewrite lookup_insert_ne by done. apply Hwk.
  - split; [done|]. by exists user.
Qed.

Lemma authenticateBearerToken_backed (tok : option string) (now : Z)
    (st : Authn.State) :
  Authn.wellKeyed st ->
  Authn.wellKeyed (snd (Authn.authenticateBearerToken tok now st)) /\
  Authn.answerBacked now st (snd (Authn.authenticateBearerToken tok now st))
    (fst (Authn.authenticateBearerToken tok now st)).
Proof.
  intros Hwk. unfold Authn.authenticateBearerToken, Authn.validateSession.
  destruct tok as [t|]; [|split; [done|apply answerBacked_unchanged]].
  destruct (Authn.sessions st !! t) as [s|] eqn:Hs;
    [|split; [done|apply answerBacked_unchanged]].
  pose proof (Hwk t s Hs) as Hid.
  destruct (Authn.expiresAt s <? now)%Z; cbn [fst snd Authn.answerBacked]; split.
  - intros t' s'. cbn. destruct (decide (t' = t)) as [->|Hne].
    + by rewrite lookup_delete_eq.
    + rewrite lookup_delete_ne by done. apply Hwk.
  - intros t'. cbn. destruct (decide (t' = t)) as [->|Hne].
    + left. apply lookup_delete_eq.
    + right. by apply lookup_delete_ne.
  - intros t' s'. cbn. destruct (decide (t' = t)) as [->|Hne].
    + rewrite lookup_insert_eq. by intros [= <-].
    + rewrite lookup_insert_ne by done. apply Hwk.
  - eexists. cbn. rewrite Hid, lookup_insert_eq. repeat split.
Qed.

Lemma authenticateBasicAuth_backed (encoded : option string) (now : Z)
    (rnd : string) (st : Authn.State) :
  Authn.wellKeyed st ->
  Authn.wellKeyed (snd (Authn.authenticateBasicAuth decodeJWT base64Decode
                          encoded now rnd st)) /\
  Authn.answerBacked now st
    (snd (Authn.authenticateBasicAuth decodeJWT base64Decode encoded now rnd st))
    (fst (Authn.authenticateBasicAuth decodeJWT base64Decode encoded now rnd st)).
Proof.
  intros Hwk. unfold Authn.authenticateBasicAuth.
  destruct encoded as [enc|]; [|split; [done|apply answerBacked_unchanged]].
  cbv zeta.
  destruct (Authn.validatePassword st _) as [user|] eqn:Hpw;
    [|split; [done|apply answerBacked_unchanged]].
  case_bool_decide; [|split; [done|apply answerBacked_unchanged]].
  apply validatePassword_Some in Hpw as Hp. destruct Hp as (p & Hp & _).
  rewrite Hp in *. cbn [default].
  destruct (Authn.createSession _ _ _ _ _) as [[s|msg] st'] eqn:Hcs.
  - destruct (createSession_backed _ _ _ _ _ _ Hwk Hcs)
      as (Hwk' & Hstored & Hexp & user' & Hcred & Huid & Hperms).
    cbn in Hcred. rewrite Hpw in Hcred. injection Hcred as <-.
    split; [done|]. by exists s.
  - unfold Authn.createSession in Hcs.
    destruct (Authn.validateCredentials _ _ _); [discriminate|].
    injection Hcs as _ <-. split; [done|apply answerBacked_unchanged].
Qed.

Lemma authenticateApiKey_backed (apiKey : option string) (now : Z)
    (rnd : string) (st : Authn.State) :
  Authn.wellKeyed st ->
  exists r st',
    Authn.authenticateApiKey decodeJWT apiKey now rnd st = (Authn.Ok r, st') /\
    Authn.wellKeyed st' /\ Authn.answerBacked now st st' r.
Proof.
  intros Hwk. unfold Authn.authenticateApiKey.
  destruct (Authn.validateApiKey st apiKey) as [user|] eqn:Hkey;
    [|eexists _, _; split; [done|split; [done|apply answerBacked_unchanged]]].
  apply validateApiKey_Some in Hkey as Hk. destruct Hk as [k ->]. cbn [default].
  destruct (Authn.createSession _ _ _ _ _) as [[s|msg] st'] eqn:Hcs.
  - destruct (createSession_backed _ _ _ _ _ _ Hwk Hcs)
      as (Hwk' & Hstored & Hexp & user' & Hcred & Huid & Hperms).
    cbn in Hcred. rewrite Hkey in Hcred. injection Hcred as <-.
    eexists _, _. split; [done|]. split; [done|]. by exists s.
  - unfold Authn.createSession in Hcs. cbn in Hcs. rewrite Hkey in Hcs.
    discriminate.
Qed.

End Authenticate.

(** X15.  [authenticate] never throws, and its answers are backed by
    the session store.  From a state in which every session is stored
    under its own id (as after the constructor, and the property is
    kept), a grant names a stored session of the granted user, with the
    granted permissions, that expires a day after the request; a
    refusal opens no session and changes none, at most an expired one
    is removed. *)
Theorem X15_authenticate_answers_backed (decodeJWT : string -> option string)
    (base64Decode toLowerCase : string -> string)
    (request : Authn.AuthRequest) (now : Z) (rnd : string) (st : Authn.State) :
  Authn.wellKeyed st ->
  exists r st',
    Authn.authenticate decodeJWT base64Decode toLowerCase request now rnd st
      = (Authn.Ok r, st') /\
    Authn.wellKeyed st' /\ Authn.answerBacked now st st' r.
Proof.
  intros Hwk. unfold Authn.authenticate.
  destruct (_ && _);
    [eexists _, _; split; [done|split; [done|apply answerBacked_unchanged]]|].
  destruct (negb _);
    [eexists _, _; split; [done|split; [done|apply answerBacked_unchanged]]|].
  cbv zeta.
  destruct (String.eqb _ "bearer").
  { destruct (authenticateBearerToken_backed
                (splitLimit " " 2 (default "" (Authn.headers request !! "authorization")) !! 1)
                now st Hwk) as [Hwk' Hb].
    destruct (Authn.authenticateBearerToken _ _ _) as [r st']. by exists r, st'. }
  destruct (String.eqb _ "basic").
  { destruct (authenticateBasicAuth_backed decodeJWT base64Decode
                (splitLimit " " 2 (default "" (Authn.headers request !! "authorization")) !! 1)
                now rnd st Hwk) as [Hwk' Hb].
    destruct (Authn.authenticateBasicAuth _ _ _ _ _ _) as [r st']. by exists r, st'. }
  destruct (String.eqb _ "apikey"); [by apply authenticateApiKey_backed|].
  eexists _, _; split; [done|split; [done|apply answerBacked_unchanged]].
Qed.

Lemma wellKeyed_init (fw : option Authn.Firewall) : Authn.wellKeyed (Authn.init fw).
Proof. intros t s. cbn. by rewrite lookup_empty. Qed.

Lemma X15_authenticate_answers_backed_witness :
  exists r st',
    Authn.authenticate (fun _ => None) (fun s => s) Authn.asciiLower
      (Authn.mkRequest "GET" {["authorization" := "ApiKey default-api-key"]} None)
      1000 "k3x9" (Authn.init None) = (Authn.Ok r, st') /\
    Authn.wellKeyed st' /\ Authn.answerBacked 1000 (Authn.init None) st' r.
Proof.
  apply (X15_authenticate_answers_backed (fun _ => None) (fun s => s)
           Authn.asciiLower
           (Authn.mkRequest "GET" {["authorization" := "ApiKey default-api-key"]} None)
           1000 "k3x9" (Authn.init None)).
  apply wellKeyed_init.
Defined.

(** X16.  With the firewall enabled the address of a request is all
    that counts once the first rule refuses (or there is no rule):
    every request that carries an address is answered [IP ... is
    blocked], whatever its credentials, and the state stays as it
    was. *)
Theorem X16_firewall_blocks_every_address (decodeJWT : string -> option string)
    (base64Decode toLowerCase : string -> string)
    (request : Authn.AuthRequest) (now : Z) (rnd : string) (st : Authn.State)
    (fw : Authn.Firewall) (addr : string) :
  Authn.firewall st = Some fw -> Authn.enabled fw = true ->
  Authn.remoteAddr request = Some addr -> addr <> "" ->
  (Authn.rule_action <$> hd_error (Authn.rules fw)) <> Some Authn.allow ->
  Authn.authenticate decodeJWT base64Decode toLowerCase request now rnd st
    = (Authn.Ok (Authn.Denied ("IP " +:+ addr +:+ " is blocked")), st).
Proof.
  intros Hfw Hen Haddr Hne Hfirst. unfold Authn.authenticate.
  rewrite Hfw, Haddr. cbn [from_option default]. rewrite Hen.
  rewrite (checkIPWhitelist_first_rule st fw addr Hfw Hne).
  by destruct (Authn.rules fw) as [|[c []] rs].
Qed.

Lemma X16_firewall_blocks_every_address_witness :
  Authn.authenticate (fun _ => None) (fun s => s) Authn.asciiLower
    (Authn.mkRequest "GET" {["authorization" := "ApiKey default-api-key"]}
       (Some "192.168.1.7"))
    1000 "k3x9"
    (Authn.init (Some (Authn.mkFirewall true
                         [Authn.mkRule "10.0.0.0/8" Authn.deny;
                          Authn.mkRule "192.168.1.0/24" Authn.allow])))
  = (Authn.Ok (Authn.Denied "IP 192.168.1.7 is blocked"),
     Authn.init (Some (Authn.mkFirewall true
                         [Authn.mkRule "10.0.0.0/8" Authn.deny;
                          Authn.mkRule "192.168.1.0/24" Authn.allow]))).
Proof.
  apply (X16_firewall_blocks_every_address (fun _ => None) (fun s => s)
           Authn.asciiLower _ 1000 "k3x9" _
           (Authn.mkFirewall true
              [Authn.mkRule "10.0.0.0/8" Authn.deny;
               Authn.mkRule "192.168.1.0/24" Authn.allow])
           "192.168.1.7"); try reflexivity; discriminate.
Defined.

Section WithoutFirewall.

Variable decodeJWT : string -> option string.
Variable base64Decode : string -> string.
Variable toLowerCase : string -> string.

Lemma validateSession_withoutFirewall (tok : option string) (now : Z)
    (st : Authn.State) :
  Authn.validateSession tok now (Authn.withoutFirewall st)
    = (fst (Authn.validateSession tok now st),
       Authn.withoutFirewall (snd (Authn.validateSession tok now st))).
Proof.
  unfold Authn.validateSession. destruct tok as [t|]; [|done]. cbn.
  destruct (Authn.sessions st !! t) as [s|]; [|done].
  by destruct (Authn.expiresAt s <? now)%Z.
Qed.

Lemma createSession_withoutFirewall (credentials : Authn.Credentials) (now : Z)
    (rnd : string) (st : Authn.State) :
  Authn.createSession decodeJWT credentials now rnd (Authn.withoutFirewall st)
    = (fst (Authn.createSession decodeJWT credentials now rnd st),
       Authn.withoutFirewall
         (snd (Authn.createSession decodeJWT credentials now rnd st))).
Proof.
  unfold Authn.createSession.
  change (Authn.validateCredentials decodeJWT (Authn.withoutFirewall st) credentials)
    with (Authn.validateCredentials decodeJWT st credentials).
  by destruct (Authn.validateCredentials decodeJWT st credentials).
Qed.

Lemma authenticate_withoutFirewall (request : Authn.AuthRequest) (now : Z)
    (rnd : string) (st : Authn.State) :
  from_option Authn.enabled false (Authn.firewall st) &&
    negb (Authn.allowed (Authn.checkIPWhitelist st (Authn.remoteAddr request)))
    = false ->
  Authn.authenticate decodeJWT base64Decode toLowerCase request now rnd
      (Authn.withoutFirewall st)
    = (fst (Authn.authenticate decodeJWT base64Decode toLowerCase request now rnd st),
       Authn.withoutFirewall
         (snd (Authn.authenticate decodeJWT base64Decode toLowerCase
                 request now rnd st))).
Proof.
  intros Hpass. unfold Authn.authenticate. rewrite Hpass.
  change (Authn.firewall (Authn.withoutFirewall st)) with (@None Authn.Firewall).
  cbn [from_option andb].
  destruct (negb (Authn.truthy _)); [done|]. cbv zeta.
  destruct (String.eqb _ "bearer").
  { unfold Authn.authenticateBearerToken.
    rewrite validateSession_withoutFirewall.
    by destruct (Authn.validateSession _ _ _) as [[s|] st']. }
  destruct (String.eqb _ "basic").
  { unfold Authn.authenticateBasicAuth.
    destruct (_ !! 1) as [enc|]; [|done]. cbv zeta.
    change (Authn.validatePassword (Authn.withoutFirewall st))
      with (Authn.validatePassword st).
    destruct (Authn.validatePassword st _) as [user|]; [|done].
    case_bool_decide; [|done].
    rewrite createSession_withoutFirewall.
    by destruct (Authn.createSession _ _ _ _ _) as [[s|msg] st']. }
  destruct (String.eqb _ "apikey"); [|done].
  unfold Authn.authenticateApiKey.
  change (Authn.validateApiKey (Authn.withoutFirewall st))
    with (Authn.validateApiKey st).
  destruct (Authn.validateApiKey st _) as [user|]; [|done].
  rewrite createSession_withoutFirewall.
  by destruct (Authn.createSession _ _ _ _ _) as [[s|msg] st'].
Qed.

End WithoutFirewall.

(** X17.  The firewall looks at nothing but the presence of an address
    and its first rule.  A request without a remote address (or with
    an empty one) gets past any firewall, and so does every request
    once the first rule says [allow]: then [authenticate] answers, and
    treats the sessions, exactly as it does with the firewall taken out
    of the configuration. *)
Theorem X17_firewall_passed (decodeJWT : string -> option string)
    (base64Decode toLowerCase : string -> string)
    (request : Authn.AuthRequest) (now : Z) (rnd : string) (st : Authn.State) :
  Authn.truthy (Authn.remoteAddr request) = false \/
  (exists fw, Authn.firewall st = Some fw /\
              (Authn.rule_action <$> hd_error (Authn.rules fw)) = Some Authn.allow) ->
  Authn.authenticate decodeJWT base64Decode toLowerCase request now rnd
      (Authn.withoutFirewall st)
    = (fst (Authn.authenticate decodeJWT base64Decode toLowerCase request now rnd st),
       Authn.withoutFirewall
         (snd (Authn.authenticate decodeJWT base64Decode toLowerCase
                 request now rnd st))).
Proof.
  intros Hpass. apply authenticate_withoutFirewall.
  apply andb_false_iff. right. apply negb_false_iff.
  unfold Authn.checkIPWhitelist.
  destruct (Authn.remoteAddr request) as [addr|]; [|done].
  destruct (Authn.firewall st) as [fw|]; [|done].
  destruct (Authn.truthy (Some addr)) eqn:Haddr; [|done].
  destruct Hpass as [?|(fw' & [= <-] & Hallow)]; [done|].
  by destruct (Authn.rules fw) as [|[c []] rs].
Qed.

Lemma X17_firewall_passed_witness :
  fst (Authn.authenticate (fun _ => None) (fun s => s) Authn.asciiLower
         (Authn.mkRequest "GET" {["authorization" := "ApiKey default-api-key"]} None)
         1000 "k3x9"
         (Authn.init (Some (Authn.mkFirewall true [Authn.mkRule "0.0.0.0/0" Authn.deny]))))
  = Authn.Ok (Authn.Granted "default-user" "sess_1000_k3x9"
                [RBAC.mkPermission "*" "*" "global" None]).
Proof.
  pose proof (X17_firewall_passed (fun _ => None) (fun s => s) Authn.asciiLower
                (Authn.mkRequest "GET" {["authorization" := "ApiKey default-api-key"]} None)
                1000 "k3x9"
                (Authn.init (Some (Authn.mkFirewall true
                                     [Authn.mkRule "0.0.0.0/0" Authn.deny])))
                (or_introl eq_refl)) as H.
  apply (f_equal fst) in H. cbn [fst] in H. rewrite <- H. reflexivity.
Defined.

Lemma splitOn_no_separator (sep : ascii) (s piece : string) :
  piece ∈ splitOn sep s -> containsChar sep piece = false.
Proof.
  revert piece; induction s as [|c s IH]; intros piece; simpl.
  - by intros ->%list_elem_of_singleton.
  - destruct (Ascii.eqb_spec c sep) as [->|Hne].
    + intros [->|Hin]%elem_of_cons; [done|by apply IH].
    + destruct (splitOn sep s) as [|first rest] eqn:Hs.
      * intros ->%list_elem_of_singleton. simpl.
        by rewrite (proj2 (Ascii.eqb_neq c sep) Hne).
      * intros [->|Hin]%elem_of_cons.
        -- simpl. rewrite (proj2 (Ascii.eqb_neq c sep) Hne). apply IH. left.
        -- apply IH. by right.
Qed.

(** X29.  The Basic credentials are cut at every colon and only the
    first two pieces are kept, so the password that is checked never
    holds a colon: whoever [authenticateBasicAuth] grants access has a
    stored password, and a user name, without a colon.  A user whose
    password contains a colon cannot log in this way. *)
Theorem X29_basic_auth_cuts_at_colons (decodeJWT : string -> option string)
    (base64Decode : string -> string) (encoded : option string) (now : Z)
    (rnd : string) (st st' : Authn.State) (uid sid : string)
    (perms : list RBAC.Permission) :
  Authn.authenticateBasicAuth decodeJWT base64Decode encoded now rnd st
    = (Authn.Granted uid sid perms, st') ->
  exists key user,
    (key, user) ∈ Authn.users st /\ Authn.user_id user = uid /\
    containsChar ":" (Authn.hashedPassword user) = false /\
    containsChar ":" (Authn.username user) = false.
Proof.
  unfold Authn.authenticateBasicAuth.
  destruct encoded as [enc|]; [|discriminate]. cbv zeta.
  set (parts := splitLimit ":" 2 (base64Decode enc)).
  destruct (Authn.validatePassword st (parts !! 1)) as [user|] eqn:Hpw;
    [|discriminate].
  case_bool_decide as Hname; [|discriminate].
  destruct (Authn.createSession _ _ _ _ _) as [[s|msg] st'']; [|discriminate].
  intros [= <- _ _ _].
  apply validatePassword_Some in Hpw as Hp. destruct Hp as (p & Hp & Hhash).
  unfold Authn.validatePassword in Hpw.
  apply find_snd_elem in Hpw as [key Hfind]. apply find_some in Hfind as [Hin _].
  assert (forall i piece, parts !! i = Some piece -> containsChar ":" piece = false)
    as Hpieces.
  { intros i piece Hi. apply (splitOn_no_separator ":" (base64Decode enc)).
    unfold parts, splitLimit in Hi. apply lookup_take_Some in Hi as [Hi _].
    by eapply list_elem_of_lookup_2. }
  exists key, user. split; [by apply list_elem_of_In|]. split; [done|]. split.
  - rewrite Hhash. by apply (Hpieces 1).
  - by apply (Hpieces 0).
Qed.

Lemma X29_basic_auth_cuts_at_colons_witness :
  exists key user,
    (key, user) ∈ Authn.users (Authn.init None) /\
    Authn.user_id user = "default-user" /\
    containsChar ":" (Authn.hashedPassword user) = false /\
    containsChar ":" (Authn.username user) = false.
Proof.
  apply (X29_basic_auth_cuts_at_colons (fun _ => None) (fun s => s)
           (Some "default:hashed-password") 1000 "k3x9" (Authn.init None)
           (snd (Authn.authenticateBasicAuth (fun _ => None) (fun s => s)
                   (Some "default:hashed-password") 1000 "k3x9" (Authn.init None)))
           "default-user" "sess_1000_k3x9"
           [RBAC.mkPermission "*" "*" "global" None]).
  reflexivity.
Defined.

(** ** Command validation of the sandboxes *)

Lemma validateCommandDocker_lists (basename : string -> string)
    (config : Sandbox.SandboxConfig) (command : Sandbox.Command) :
  Sandbox.validateCommandDocker basename config command = true ->
  Sandbox.listsAllow basename config command = true.
Proof.
  unfold Sandbox.validateCommandDocker.
  by destruct (Sandbox.listsAllow basename config command).
Qed.

(** X18.  The network and file system checks of the Docker sandbox
    compare the executable as it is written, while the lists compare
    its base name.  So what the Docker sandbox accepts the process
    sandbox accepts too, and for an executable not written exactly
    [curl], [wget], [rm] or [mv] (for one written with its directory,
    say) the two agree: the verdict depends on the allow and deny
    lists alone, not on the network or file system policy. *)
Theorem X18_docker_checks_literal_names (basename : string -> string)
    (config : Sandbox.SandboxConfig) (command : Sandbox.Command) :
  (Sandbox.validateCommandDocker basename config command = true ->
   Sandbox.validateCommandProcess basename config command = true) /\
  (Sandbox.executable command ∉ ["curl"; "wget"; "rm"; "mv"] ->
   Sandbox.validateCommandDocker basename config command
     = Sandbox.validateCommandProcess basename config command).
Proof.
  split; [apply validateCommandDocker_lists|].
  intros Hexe.
  unfold Sandbox.validateCommandDocker, Sandbox.validateCommandProcess.
  assert (Hne : forall n, n ∈ ["curl"; "wget"; "rm"; "mv"] ->
                  String.eqb (Sandbox.executable command) n = false).
  { intros n Hn. apply String.eqb_neq. intros Heq. apply Hexe. by rewrite Heq. }
  rewrite !Hne by (apply list_elem_of_In; simpl; tauto).
  by destruct (Sandbox.listsAllow basename config command).
Qed.

Lemma X18_docker_checks_literal_names_witness :
  let config :=
    Sandbox.mkSandboxConfig true "container" ["curl"; "ls"] []
      (Sandbox.mkNetworkPolicy true false false [] [])
      (Sandbox.mkFilesystemPolicy false ["/workspace"] []) in
  Sandbox.validateCommandDocker Sandbox.posixBasename config
    (Sandbox.mkCommand "/usr/bin/curl" ["https://example.org"] None) = true /\
  Sandbox.validateCommandDocker Sandbox.posixBasename config
    (Sandbox.mkCommand "curl" ["https://example.org"] None) = false.
Proof.
  intros config. split; [|reflexivity].
  rewrite (proj2 (X18_docker_checks_literal_names Sandbox.posixBasename config
                    (Sandbox.mkCommand "/usr/bin/curl" ["https://example.org"] None))).
  - reflexivity.
  - intros Hin. apply list_elem_of_In in Hin. simpl in Hin.
    repeat (destruct Hin as [Hin|Hin]; [discriminate|]). done.
Defined.

(** X19.  For [rm] and [mv] that pass the lists the Docker sandbox
    accepts the command exactly when every argument that begins with a
    slash begins with one of the allowed paths.  Relative arguments are
    never looked at, and the comparison is one of strings, so an
    allowed path also admits every longer path that merely starts with
    the same characters. *)
Theorem X19_rm_mv_path_check (basename : string -> string)
    (config : Sandbox.SandboxConfig) (command : Sandbox.Command) :
  Sandbox.executable command ∈ ["rm"; "mv"] ->
  Sandbox.listsAllow basename config command = true ->
  (Sandbox.validateCommandDocker basename config command = true <->
   forall arg, arg ∈ Sandbox.args command -> startsWith arg "/" = true ->
     exists allowedPath rest,
       allowedPath ∈ Sandbox.allowedPaths (Sandbox.filesystemPolicy config) /\
       arg = allowedPath +:+ rest).
Proof.
  intros Hexe Hlists. unfold Sandbox.validateCommandDocker. rewrite Hlists.
  assert ((String.eqb (Sandbox.executable command) "curl" ||
           String.eqb (Sandbox.executable command) "wget") = false /\
          (String.eqb (Sandbox.executable command) "rm" ||
           String.eqb (Sandbox.executable command) "mv") = true) as [-> ->].
  { apply list_elem_of_In in Hexe. simpl in Hexe.
    destruct Hexe as [<-|[<-|[]]]; by split. }
  cbn [negb andb].
  destruct (forallb _ _) eqn:Hall; cbn [negb].
  - split; [intros _|done]. intros arg Harg Habs.
    rewrite forallb_forall in Hall.
    specialize (Hall arg (proj1 (list_elem_of_In _ _) Harg)).
    unfold Sandbox.argAllowed in Hall. rewrite Habs in Hall.
    apply existsb_exists in Hall as (ap & Hap & Hpre).
    apply startsWith_inv in Hpre as [rest ->].
    exists ap, rest. split; [by apply list_elem_of_In|done].
  - split; [discriminate|]. intros Hok.
    assert (forallb (Sandbox.argAllowed config) (Sandbox.args command) = true)
      as Hall'; [|congruence].
    apply forallb_forall. intros arg Harg%list_elem_of_In.
    unfold Sandbox.argAllowed. destruct (startsWith arg "/") eqn:Habs; [|done].
    destruct (Hok arg Harg Habs) as (ap & rest & Hap & ->).
    apply existsb_exists. exists ap.
    split; [by apply list_elem_of_In|apply startsWith_app].
Qed.

Lemma X19_rm_mv_path_check_witness :
  Sandbox.validateCommandDocker Sandbox.posixBasename
    (Sandbox.mkSandboxConfig true "container" [] []
       (Sandbox.mkNetworkPolicy true false false [] [])
       (Sandbox.mkFilesystemPolicy false ["/tmp"] []))
    (Sandbox.mkCommand "rm" ["-rf"; "/tmpfiles/../etc"; "../../home"] None) = true.
Proof.
  apply (X19_rm_mv_path_check Sandbox.posixBasename _
           (Sandbox.mkCommand "rm" ["-rf"; "/tmpfiles/../etc"; "../../home"] None));
    [apply list_elem_of_In; simpl; tauto | reflexivity |].
  intros arg Harg Habs. apply list_elem_of_In in Harg. simpl in Harg.
  destruct Harg as [<-|[<-|[<-|[]]]]; try discriminate.
  exists "/tmp", "files/../etc". split; [left|reflexivity].
Defined.

(** ** The two level cache *)

Section CacheFacts.

Context {W : Type} (hashKey : string -> string).

Lemma get_after_set_memory (key : string) (v : option W) (now later : Z)
    (st : Cache.State) :
  (later - now <= Cache.cache_ttl st)%Z ->
  Cache.get hashKey key later (Cache.set hashKey key v now st)
    = (v, Cache.set hashKey key v now st).
Proof.
  intros Hfresh. unfold Cache.get.
  cbn [Cache.set Cache.memoryCache]. rewrite lookup_insert_eq.
  unfold Cache.isExpired.
  cbn [from_option Cache.ttl Cache.timestamp Cache.value].
  by rewrite (proj2 (Z.ltb_ge _ _) Hfresh).
Qed.

Lemma get_after_set_disk (key : string) (w : W) (now later : Z)
    (st : Cache.State) :
  (Cache.cache_ttl st < later - now)%Z -> (later - now <= 300000)%Z ->
  Cache.get hashKey key later (Cache.set hashKey key (Some w) now st)
    = (Some w,
       Cache.mkState
         (<[key := Cache.mkItem (Some w) later (Cache.cache_ttl st)]>
            (Cache.memoryCache st))
         (Cache.diskSet hashKey key (Some w) now (Cache.diskCache st))
         (Cache.cache_ttl st)).
Proof.
  intros Hold Hdisk. unfold Cache.get, Cache.set.
  cbn [Cache.memoryCache Cache.diskCache Cache.cache_ttl].
  rewrite lookup_insert_eq. unfold Cache.isExpired.
  cbn [from_option Cache.ttl Cache.timestamp Cache.value].
  rewrite (proj2 (Z.ltb_lt _ _) Hold). cbn [negb].
  unfold Cache.diskGet, Cache.diskSet. rewrite lookup_insert_eq.
  cbn [Cache.ttl Cache.timestamp Cache.value].
  rewrite (proj2 (Z.ltb_ge _ _) Hdisk).
  by rewrite insert_insert_eq.
Qed.

Lemma get_memory_hit (key : string) (now : Z) (st : Cache.State (W := W))
    (item : Cache.CacheItem) :
  Cache.memoryCache st !! key = Some item ->
  (now - Cache.timestamp item <= Cache.ttl item)%Z ->
  Cache.get hashKey key now st = (Cache.value item, st).
Proof.
  intros Hitem Hfresh. unfold Cache.get. rewrite Hitem.
  unfold Cache.isExpired. cbn [from_option].
  by rewrite (proj2 (Z.ltb_ge _ _) Hfresh).
Qed.

End CacheFacts.

(** X20.  A value that was [set] is served from memory while the time
    to live of the cache has not run out: [get] returns it and changes
    nothing. *)
Theorem X20_cache_set_then_get {W : Type} (hashKey : string -> string)
    (key : string) (v : option W) (now later : Z) (st : Cache.State) :
  (later - now <= Cache.cache_ttl st)%Z ->
  Cache.get hashKey key later (Cache.set hashKey key v now st)
    = (v, Cache.set hashKey key v now st).
Proof. apply get_after_set_memory. Qed.

Lemma X20_cache_set_then_get_witness :
  Cache.get (fun k => k) "page" 1500 (Cache.set (fun k => k) "page" (Some "html") 1000
                                        (Cache.init 1000))
    = (Some "html", Cache.set (fun k => k) "page" (Some "html") 1000 (Cache.init 1000)).
Proof.
  apply (X20_cache_set_then_get (fun k => k) "page" (Some "html") 1000 1500
           (Cache.init 1000)).
  cbn. lia.
Defined.

(** X21.  A time to live under five minutes is not kept: the disk
    keeps every entry for [300000] ms, whatever the cache was built
    with.  After the time to live has run out, and up to five minutes
    after the [set], [get] still returns the value, and puts it into
    memory again with a new time stamp, so that it is served for
    another time to live from then on, without any [set]. *)
Theorem X21_cache_ttl_not_kept {W : Type} (hashKey : string -> string)
    (key : string) (w : W) (now later again : Z) (st : Cache.State) :
  (Cache.cache_ttl st < later - now)%Z -> (later - now <= 300000)%Z ->
  (again - later <= Cache.cache_ttl st)%Z ->
  let r := Cache.get hashKey key later (Cache.set hashKey key (Some w) now st) in
  fst r = Some w /\
  fst (Cache.get hashKey key again (snd r)) = Some w.
Proof.
  intros Hold Hdisk Hagain. cbn zeta.
  rewrite (get_after_set_disk hashKey key w now later st Hold Hdisk).
  cbn [fst snd]. split; [done|].
  rewrite (get_memory_hit hashKey key again _
             (Cache.mkItem (Some w) later (Cache.cache_ttl st))); [done| |done].
  cbn [Cache.memoryCache]. apply lookup_insert_eq.
Qed.

Lemma X21_cache_ttl_not_kept_witness :
  let st := Cache.set (fun k => k) "page" (Some "html") 0 (Cache.init 1000) in
  fst (Cache.get (fun k => k) "page" 301000
         (snd (Cache.get (fun k => k) "page" 300000 st))) = Some "html".
Proof.
  intros st.
  apply (X21_cache_ttl_not_kept (fun k => k) "page" "html" 0 300000 301000
           (Cache.init 1000)); cbn; lia.
Defined.

(** X22.  After [delete] a key is gone from both levels: [get] returns
    [null] at every time and leaves the state as it is. *)
Theorem X22_cache_delete_then_get {W : Type} (hashKey : string -> string)
    (key : string) (now : Z) (st : Cache.State (W := W)) :
  Cache.get hashKey key now (Cache.delete_ hashKey key st)
    = (None, Cache.delete_ hashKey key st).
Proof.
  unfold Cache.get, Cache.delete_.
  cbn [Cache.memoryCache Cache.diskCache Cache.cache_ttl].
  rewrite lookup_delete_eq. cbn [from_option].
  unfold Cache.diskGet, Cache.diskDelete. by rewrite lookup_delete_eq.
Qed.

(** X23.  The eviction timer is invisible to [get]: a run of the timer
    at some time changes the answer of no later [get]. *)
Theorem X23_cache_eviction_invisible {W : Type} (hashKey : string -> string)
    (key : string) (now later : Z) (st : Cache.State (W := W)) :
  (now <= later)%Z ->
  fst (Cache.get hashKey key later (Cache.evict now st))
    = fst (Cache.get hashKey key later st).
Proof.
  intros Hle. unfold Cache.get, Cache.evict.
  cbn [Cache.memoryCache Cache.diskCache Cache.cache_ttl].
  destruct (Cache.memoryCache st !! key) as [item|] eqn:Hitem.
  - destruct (Cache.isExpired now item) eqn:Hnow.
    + assert (Cache.isExpired later item = true) as Hlater.
      { unfold Cache.isExpired in *. apply Z.ltb_lt. apply Z.ltb_lt in Hnow. lia. }
      rewrite map_lookup_filter_None_2
        by (right; intros item' Hitem'; cbn; congruence).
      cbn [from_option]. rewrite Hlater. cbn [negb].
      by destruct (Cache.diskGet hashKey key later (Cache.diskCache st)) as [[w|] disk].
    + rewrite (map_lookup_filter_Some_2 _ _ key item) by done.
      cbn [from_option].
      destruct (Cache.isExpired later item); cbn [negb]; [|done].
      by destruct (Cache.diskGet hashKey key later (Cache.diskCache st)) as [[w|] disk].
  - rewrite map_lookup_filter_None_2 by (by left).
    cbn [from_option].
    by destruct (Cache.diskGet hashKey key later (Cache.diskCache st)) as [[w|] disk].
Qed.

Lemma X23_cache_eviction_invisible_witness :
  let st := Cache.set (fun k => k) "page" (Some "html") 0 (Cache.init 1000) in
  fst (Cache.get (fun k => k) "page" 5000 (Cache.evict 2000 st)) = Some "html".
Proof.
  intros st.
  rewrite (X23_cache_eviction_invisible (fun k => k) "page" 2000 5000 st
             ltac:(lia)).
  reflexivity.
Defined.

(** ** Security monitoring *)

Lemma append_inj_l (s a b : string) : s +:+ a = s +:+ b -> a = b.
Proof. induction s as [|c s IH]; simpl; [done|]. intros [= H]. by apply IH. Qed.

Ltac string_eqb_cases :=
  repeat match goal with
         | |- context [String.eqb ?a ?b] =>
             destruct (String.eqb_spec a b); subst; simpl
         end;
  try congruence.

Lemma groupOf_addToGroup (u u' : string) (e : Monitor.SecurityEvent)
    (groups : list (string * list Monitor.SecurityEvent)) :
  Monitor.groupOf u' (Monitor.addToGroup u e groups)
    = if String.eqb u u'
      then Some (default [] (Monitor.groupOf u groups) ++ [e])%list
      else Monitor.groupOf u' groups.
Proof.
  unfold Monitor.groupOf.
  induction groups as [|[k l] groups IH]; simpl.
  - string_eqb_cases.
  - destruct (String.eqb_spec k u); subst; simpl.
    + string_eqb_cases.
    + destruct (String.eqb_spec k u'); subst; simpl.
      * string_eqb_cases.
      * rewrite IH. string_eqb_cases.
Qed.

Lemma addToGroup_keys (u : string) (e : Monitor.SecurityEvent)
    (groups : list (string * list Monitor.SecurityEvent)) :
  NoDup (map fst groups) -> NoDup (map fst (Monitor.addToGroup u e groups)) /\
  (forall k, k ∈ map fst (Monitor.addToGroup u e groups) ->
             k = u \/ k ∈ map fst groups).
Proof.
  induction groups as [|[k l] groups IH]; simpl; intros Hnd.
  - split; [repeat constructor; by intros ?%elem_of_nil|].
    intros k' [->|?%elem_of_nil]%elem_of_cons; [by left|done].
  - apply NoDup_cons in Hnd as [Hk Hnd].
    destruct (String.eqb_spec k u) as [->|Hku]; simpl.
    + split; [by constructor|]. intros k' Hk'. by right.
    + destruct (IH Hnd) as [Hnd' Hkeys]. split.
      * constructor; [|done]. intros [->|Hin]%Hkeys; done.
      * intros k' [->|Hk']%elem_of_cons; [right; left|].
        destruct (Hkeys k' Hk') as [->|?]; [by left|right; by right].
Qed.

Lemma groupOf_elem (u : string) (l : list Monitor.SecurityEvent)
    (groups : list (string * list Monitor.SecurityEvent)) :
  NoDup (map fst groups) ->
  (u, l) ∈ groups <-> Monitor.groupOf u groups = Some l.
Proof.
  unfold Monitor.groupOf.
  induction groups as [|[k l'] groups IH]; simpl; intros Hnd.
  - split; [by intros ?%elem_of_nil|done].
  - apply NoDup_cons in Hnd as [Hk Hnd].
    destruct (String.eqb_spec k u) as [->|Hku]; simpl.
    + split.
      * intros [[= ->]|Hin]%elem_of_cons; [done|].
        destruct Hk. apply list_elem_of_fmap. by exists (u, l).
      * intros [= ->]. left.
    + rewrite <- (IH Hnd). split.
      * intros [[= -> ->]|Hin]%elem_of_cons; done.
      * intros Hin. by right.
Qed.

Lemma groupBy_fold (u : string) (events : list Monitor.SecurityEvent)
    (groups : list (string * list Monitor.SecurityEvent)) :
  NoDup (map fst groups) ->
  let result := fold_left (fun groups event =>
                  Monitor.addToGroup (Monitor.userKey event) event groups)
                events groups in
  NoDup (map fst result) /\
  Monitor.groupOf u result
    = match Monitor.groupOf u groups,
            List.filter (fun e => String.eqb (Monitor.userKey e) u) events with
      | None, [] => None
      | o, f => Some (default [] o ++ f)%list
      end.
Proof.
  revert groups; induction events as [|e events IH]; intros groups Hnd; simpl.
  - split; [done|]. destruct (Monitor.groupOf u groups); simpl; [|done].
    by rewrite app_nil_r.
  - destruct (addToGroup_keys (Monitor.userKey e) e groups Hnd) as [Hnd' _].
    destruct (IH _ Hnd') as [Hres Hgroup]. split; [done|].
    rewrite Hgroup, groupOf_addToGroup.
    destruct (String.eqb_spec (Monitor.userKey e) u) as [Heq|Hne].
    + rewrite Heq. simpl.
      destruct (Monitor.groupOf u groups) as [l|]; simpl.
      * rewrite <- app_assoc. simpl.
        by destruct (List.filter _ events).
      * by destruct (List.filter _ events).
    + done.
Qed.

Lemma groupByUserId_spec (u : string) (events l : list Monitor.SecurityEvent) :
  (u, l) ∈ Monitor.groupByUserId events <->
  l <> [] /\ l = List.filter (fun e => String.eqb (Monitor.userKey e) u) events.
Proof.
  unfold Monitor.groupByUserId.
  destruct (groupBy_fold u events [] (NoDup_nil_2)) as [Hnd Hgroup].
  rewrite (groupOf_elem u l _ Hnd), Hgroup. simpl.
  destruct (List.filter _ events) as [|x f]; split.
  - discriminate.
  - intros [Hne ->]. done.
  - intros [= <-]. done.
  - intros [_ ->]. done.
Qed.

Lemma insertByTime_perm (e : Monitor.SecurityEvent) (l : list Monitor.SecurityEvent) :
  Monitor.insertByTime e l ≡ₚ e :: l.
Proof.
  induction l as [|x l IH]; simpl; [done|].
  destruct (_ <? _)%Z; [done|]. rewrite IH. apply Permutation_swap.
Qed.

Lemma insertByTime_sorted (e : Monitor.SecurityEvent) (l : list Monitor.SecurityEvent) :
  StronglySorted (fun a b => (Monitor.ev_timestamp a <= Monitor.ev_timestamp b)%Z) l ->
  StronglySorted (fun a b => (Monitor.ev_timestamp a <= Monitor.ev_timestamp b)%Z)
                 (Monitor.insertByTime e l).
Proof.
  induction 1 as [|x l Hsorted IH Hall]; simpl; [repeat constructor|].
  destruct (Z.ltb_spec (Monitor.ev_timestamp e) (Monitor.ev_timestamp x)) as [Hlt|Hge].
  - constructor; [by constructor|]. constructor; [lia|].
    eapply Forall_impl; [exact Hall|]. intros y Hy. simpl in Hy. lia.
  - constructor; [done|]. rewrite insertByTime_perm. by constructor.
Qed.

Lemma sortByTime_spec (l : list Monitor.SecurityEvent) :
  Monitor.sortByTime l ≡ₚ l /\
  StronglySorted (fun a b => (Monitor.ev_timestamp a <= Monitor.ev_timestamp b)%Z)
                 (Monitor.sortByTime l).
Proof.
  unfold Monitor.sortByTime.
  assert (forall acc,
            StronglySorted (fun a b => (Monitor.ev_timestamp a <= Monitor.ev_timestamp b)%Z) acc ->
            fold_left (fun sorted event => Monitor.insertByTime event sorted) l acc
              ≡ₚ (acc ++ l)%list /\
            StronglySorted (fun a b => (Monitor.ev_timestamp a <= Monitor.ev_timestamp b)%Z)
              (fold_left (fun sorted event => Monitor.insertByTime event sorted) l acc))
    as Hgen.
  { induction l as [|e l IH]; intros acc Hacc; simpl.
    - by rewrite app_nil_r.
    - destruct (IH _ (insertByTime_sorted e acc Hacc)) as [Hperm Hsorted].
      split; [|done]. rewrite Hperm, insertByTime_perm. simpl.
      apply Permutation_middle. }
  apply (Hgen []). constructor.
Qed.

Lemma sorted_last_max (x d : Monitor.SecurityEvent) (l : list Monitor.SecurityEvent) :
  StronglySorted (fun a b => (Monitor.ev_timestamp a <= Monitor.ev_timestamp b)%Z) (x :: l) ->
  forall y, y ∈ x :: l ->
    (Monitor.ev_timestamp x <= Monitor.ev_timestamp y)%Z /\
    (Monitor.ev_timestamp y <= Monitor.ev_timestamp (List.last (x :: l) d))%Z /\
    List.last (x :: l) d ∈ x :: l.
Proof.
  revert x; induction l as [|z l IH]; intros x Hsorted y Hy.
  - apply list_elem_of_singleton in Hy as ->. simpl. split; [lia|]. split; [lia|left].
  - apply StronglySorted_inv in Hsorted as [Hsorted Hall].
    change (List.last (x :: z :: l) d) with (List.last (z :: l) d).
    apply elem_of_cons in Hy as [->|Hy].
    + destruct (IH z Hsorted z ltac:(left)) as (_ & Hzlast & Hin).
      split; [lia|]. split; [|by right].
      apply Forall_cons in Hall as [Hxz _]. lia.
    + destruct (IH z Hsorted y Hy) as (Hzy & Hylast & Hin).
      split; [|split; [done|by right]].
      rewrite Forall_forall in Hall. by apply Hall.
Qed.

Lemma getTimeSpan_spec (l : list Monitor.SecurityEvent) (bound : Z) :
  (0 < bound)%Z ->
  snd (Monitor.getTimeSpan l) ≡ₚ l /\
  ((fst (Monitor.getTimeSpan l) < bound)%Z <->
   forall e1 e2, e1 ∈ l -> e2 ∈ l ->
     (Monitor.ev_timestamp e2 - Monitor.ev_timestamp e1 < bound)%Z).
Proof.
  intros Hbound. unfold Monitor.getTimeSpan.
  destruct (Nat.ltb_spec (length l) 2) as [Hshort|Hlong]; simpl.
  - split; [done|]. split; [|intros; lia].
    intros _ e1 e2 H1 H2.
    destruct l as [|x [|y l]]; [by apply elem_of_nil in H1| |simpl in Hshort; lia].
    apply list_elem_of_singleton in H1 as ->.
    apply list_elem_of_singleton in H2 as ->. lia.
  - destruct (sortByTime_spec l) as [Hperm Hsorted].
    destruct (Monitor.sortByTime l) as [|x s] eqn:Hs; cbn [fst snd].
    + split; [done|]. split; [|intros; lia].
      apply Permutation_nil_l in Hperm as <-. by intros _ e1 e2 ?%elem_of_nil.
    + split; [done|]. split.
      * intros Hspan e1 e2 H1 H2.
        rewrite <- Hperm in H1, H2.
        destruct (sorted_last_max x x s Hsorted e1 H1) as (Hmin1 & _ & _).
        destruct (sorted_last_max x x s Hsorted e2 H2) as (_ & Hmax2 & _).
        lia.
      * intros Hall.
        destruct (sorted_last_max x x s Hsorted x ltac:(left)) as (_ & _ & Hlast).
        apply Hall; rewrite <- Hperm; [left|done].
Qed.

(** X24.  [LoginAnomalyDetector.analyze] looks at a batch as a whole,
    not at a sliding window.  A user (failures without a user id count
    for [unknown]) is reported exactly when the batch holds at least
    five login failures of that user and no two of them are five
    minutes or more apart.  So five failures within a second go
    unreported as soon as the batch holds one more failure of the user
    that is five minutes older. *)
Theorem X24_brute_force_over_whole_batch (now : Z)
    (events : list Monitor.SecurityEvent) (u : string) :
  let failures :=
    List.filter (fun e => String.eqb (Monitor.userKey e) u)
      (List.filter (fun e => String.eqb (Monitor.ev_type e) "login_failure") events) in
  (exists r, r ∈ Monitor.analyzeLogin now events /\
             Monitor.description r
               = "Potential brute force attack detected for user " +:+ u) <->
  (5 <= length failures /\
   forall e1 e2, e1 ∈ failures -> e2 ∈ failures ->
     (Monitor.ev_timestamp e2 - Monitor.ev_timestamp e1 < 300000)%Z).
Proof.
  cbn zeta. unfold Monitor.analyzeLogin.
  set (loginFailures := List.filter _ events).
  split.
  - intros (r & Hr & Hdesc).
    apply list_elem_of_omap in Hr as ([u' l] & Hgroup & Hrep).
    apply groupByUserId_spec in Hgroup as [_ Hl].
    unfold Monitor.loginReport in Hrep.
    destruct (Nat.leb_spec 5 (length l)) as [Hlen|]; [|discriminate].
    destruct (getTimeSpan_spec l 300000 ltac:(lia)) as [_ Hspan].
    destruct (Monitor.getTimeSpan l) as [span l'].
    destruct (Z.ltb_spec span 300000) as [Hlt|]; [|discriminate].
    injection Hrep as <-. cbn in Hdesc. apply append_inj_l in Hdesc as ->.
    rewrite <- Hl. split; [done|]. by apply Hspan.
  - intros [Hlen Hpairs].
    set (l := List.filter _ loginFailures) in *.
    assert ((u, l) ∈ Monitor.groupByUserId loginFailures) as Hgroup.
    { apply groupByUserId_spec. split; [|done].
      intros Hnil. rewrite Hnil in Hlen. simpl in Hlen. lia. }
    destruct (getTimeSpan_spec l 300000 ltac:(lia)) as [_ Hspan].
    apply Hspan in Hpairs.
    destruct (Monitor.getTimeSpan l) as [span l'] eqn:Hts. cbn [fst] in Hpairs.
    eexists. split.
    + apply list_elem_of_omap. exists (u, l). split; [done|].
      unfold Monitor.loginReport. rewrite (proj2 (Nat.leb_le _ _) Hlen), Hts.
      by rewrite (proj2 (Z.ltb_lt _ _) Hpairs).
    + reflexivity.
Qed.

Lemma X24_brute_force_over_whole_batch_witness :
  let fail t := Monitor.mkEvent ("e" +:+ pretty t) t "login_failure" "medium"
                  (Some "bob") "auth" None in
  exists r, r ∈ Monitor.analyzeLogin 0 [fail 1; fail 2; fail 3; fail 4; fail 5]%Z /\
            Monitor.description r
              = "Potential brute force attack detected for user bob".
Proof.
  intros fail.
  apply (X24_brute_force_over_whole_batch 0
           [fail 1; fail 2; fail 3; fail 4; fail 5]%Z "bob").
  split; [vm_compute; lia|].
  intros e1 e2 H1 H2. apply list_elem_of_In in H1, H2. simpl in H1, H2.
  destruct H1 as [<-|[<-|[<-|[<-|[<-|[]]]]]];
    destruct H2 as [<-|[<-|[<-|[<-|[<-|[]]]]]]; vm_compute; reflexivity.
Defined.

Section MonitorFacts.

Variable isSuspiciousCommand : string -> bool.


Lemma detectAnomalies_confidence (now : Z) (events : list Monitor.SecurityEvent)
    (r : Monitor.AnomalyReport) :
  r ∈ Monitor.detectAnomalies isSuspiciousCommand now events ->
  Monitor.confidence r = (9 # 10)%Q \/ Monitor.confidence r = (8 # 10)%Q.
Proof.
  unfold Monitor.detectAnomalies, Monitor.analyzeAccessPattern,
    Monitor.analyzeDataAccess.
  rewrite !app_nil_r.
  intros [Hr|Hr]%elem_of_app.
  - left. apply list_elem_of_omap in Hr as ([u l] & _ & Hrep).
    unfold Monitor.loginReport in Hrep.
    destruct (5 <=? length l)%nat; [|discriminate].
    destruct (Monitor.getTimeSpan l) as [span l'].
    destruct (span <? 300000)%Z; [|discriminate]. by injection Hrep as <-.
  - right. apply list_elem_of_omap in Hr as (e & _ & Hrep).
    unfold Monitor.commandReport in Hrep.
    destruct (_ && _); [|discriminate]. by injection Hrep as <-.
Qed.

Lemma generateAlerts_elem (now : Z) (rnd : nat -> string)
    (anomalies : list Monitor.AnomalyReport) (alert : Monitor.Alert) :
  alert ∈ Monitor.generateAlerts now rnd anomalies ->
  exists i r, r ∈ anomalies /\ alert = Monitor.alertOf now (rnd i) r.
Proof.
  unfold Monitor.generateAlerts.
  intros ([i r] & Hin & Halert)%list_elem_of_omap.
  apply elem_of_lookup_imap in Hin as (j & r' & [= -> ->] & Hlookup).
  cbn in Halert. destruct (Monitor.Qgtb _ _); [|discriminate].
  injection Halert as <-. exists j, r'. split; [|done].
  by eapply list_elem_of_lookup_2.
Qed.

End MonitorFacts.



(** X26.  No detector produces a critical alert: the confidences the
    detectors report are [0.9] and [0.8], and an alert is critical only
    above [0.9].  So every alert made from detected anomalies is a
    warning, and [logEvent] never blocks a user or an address; with
    auditing on it increases the monitoring. *)
Theorem X26_alerts_never_critical (isSuspiciousCommand : string -> bool)
    (event : Monitor.SecurityEvent) (events : list Monitor.SecurityEvent)
    (now : Z) (rnd : nat -> string) (st : Monitor.State) :
  (forall alert,
     alert ∈ Monitor.generateAlerts now rnd
               (Monitor.detectAnomalies isSuspiciousCommand now events) ->
     Monitor.severity alert = "warning") /\
  (forall alert,
     Monitor.Block alert ∉ snd (Monitor.logEvent isSuspiciousCommand event now rnd st)).
Proof.
  assert (Hsev : forall evs alert,
            alert ∈ Monitor.generateAlerts now rnd
                      (Monitor.detectAnomalies isSuspiciousCommand now evs) ->
            Monitor.severity alert = "warning").
  { intros evs alert (i & r & Hr & ->)%generateAlerts_elem.
    by destruct (detectAnomalies_confidence _ _ _ _ Hr) as [Hc|Hc];
      cbn; rewrite Hc. }
  split; [apply Hsev|].
  intros alert. unfold Monitor.logEvent. cbn [snd].
  intros Hblock%list_elem_of_In. apply in_concat in Hblock as (acts & Hacts & Hin).
  apply in_map_iff in Hacts as (a & <- & Ha%list_elem_of_In).
  apply list_elem_of_In in Hin.
  apply Hsev in Ha. unfold Monitor.handleAlert in Hin.
  apply elem_of_app in Hin as [(i & [=] & _)%list_elem_of_fmap|Hin].
  destruct (Monitor.auditEnabled _); [|by apply elem_of_nil in Hin].
  unfold Monitor.respondToIncident in Hin. rewrite Ha in Hin. simpl in Hin.
  by apply list_elem_of_singleton in Hin.
Qed.

(** X27.  The event log is bounded: a log of at most 10000 events
    holds at most 10000 after [logEvent], the event just logged is its
    last entry, and the log is always the tail of the old log followed
    by the new event; when the bound is passed only the 5000 newest
    events stay. *)
Theorem X27_eventLog_bounded (isSuspiciousCommand : string -> bool)
    (event : Monitor.SecurityEvent) (now : Z) (rnd : nat -> string)
    (st : Monitor.State) :
  (Z.of_nat (length (Monitor.eventLog st)) <= 10000)%Z ->
  let log' := Monitor.eventLog
                (fst (Monitor.logEvent isSuspiciousCommand event now rnd st)) in
  (Z.of_nat (length log') <= 10000)%Z /\
  last log' = Some event /\
  log' `suffix_of` (Monitor.eventLog st ++ [event])%list /\
  (Z.of_nat (length (Monitor.eventLog st)) = 10000 ->
   Z.of_nat (length log') = 5000)%Z.
Proof.
  intros Hbound. unfold Monitor.logEvent. cbn [fst Monitor.eventLog].
  set (log := (Monitor.eventLog st ++ [event])%list).
  assert (Hlen : length log = S (length (Monitor.eventLog st))).
  { unfold log. rewrite length_app. simpl. lia. }
  destruct (Z.ltb_spec 10000 (Z.of_nat (length log))) as [Hover|Hok].
  - split; [rewrite length_drop; lia|]. split; [|split].
    + unfold log in *. rewrite length_app in *. cbn [length] in *.
      rewrite drop_app_le by lia. apply last_snoc.
    + apply suffix_drop.
    + intros _. rewrite length_drop. lia.
  - split; [lia|]. split; [apply last_snoc|]. split; [done|]. lia.
Qed.

Lemma X27_eventLog_bounded_witness :
  last (Monitor.eventLog
          (fst (Monitor.logEvent (fun _ => false)
                  (Monitor.mkEvent "e1" 1 "login_failure" "low" None "auth" None)
                  1 (fun _ => "r") (Monitor.mkState [] 0 false))))
    = Some (Monitor.mkEvent "e1" 1 "login_failure" "low" None "auth" None).
Proof.
  apply (X27_eventLog_bounded (fun _ => false)
           (Monitor.mkEvent "e1" 1 "login_failure" "low" None "auth" None)
           1 (fun _ => "r") (Monitor.mkState [] 0 false)).
  simpl. lia.
Defined.

(** ** The resource manager *)

Section ResourceFacts.

Context {Requirements : Type}.

Lemma activeOfType_insert (type t : Resources.ResourceType) (id : string)
    (r : Resources.ResourceUsage (Requirements := Requirements))
    (st : Resources.State) :
  Resources.activeOfType t
    (Resources.mkState (<[id := r]> (Resources.activeResources st))
                       (Resources.maxConcurrentRuns st))
    <= (if Resources.ResourceType_eqb (Resources.res_type r) t
        then S (Resources.activeOfType t st) else Resources.activeOfType t st).
Proof.
  unfold Resources.activeOfType. cbn [Resources.activeResources].
  rewrite map_filter_insert. cbn [snd].
  destruct (Resources.ResourceType_eqb (Resources.res_type r) t) eqn:Ht.
  - rewrite decide_True by (cbn; done). rewrite map_size_insert.
    destruct (filter _ _ !! id); simpl; lia.
  - rewrite decide_False by (cbn; congruence).
    rewrite map_filter_delete, map_size_delete.
    destruct (filter _ _ !! id); simpl; lia.
Qed.

Lemma activeOfType_delete (t : Resources.ResourceType) (id : string)
    (st : Resources.State (Requirements := Requirements)) :
  Resources.activeOfType t (Resources.releaseResource id st)
    <= Resources.activeOfType t st.
Proof.
  unfold Resources.activeOfType, Resources.releaseResource.
  cbn [Resources.activeResources].
  rewrite map_filter_delete, map_size_delete.
  destruct (filter _ _ !! id); simpl; lia.
Qed.

End ResourceFacts.

(** X28.  The limit on agents is kept, and it is the only limit.  When
    no more than [maxConcurrentRuns] agents are active (none, for a
    limit below zero), this is still so after every [acquireResource]
    and [releaseResource], whatever is acquired and however the system
    check comes out.  A resource of another type is granted whenever
    the system check passes, however many of its type are active. *)
Theorem X28_agent_limit_kept {Requirements : Type} (type : Resources.ResourceType)
    (id : string) (reqs : Requirements) (now : Z) (sufficient : bool)
    (st : Resources.State) :
  (Z.of_nat (Resources.activeOfType Resources.agent st)
     <= Z.max 0 (Resources.maxConcurrentRuns st))%Z ->
  let st' := snd (Resources.acquireResource type id reqs now sufficient st) in
  (Z.of_nat (Resources.activeOfType Resources.agent st')
     <= Z.max 0 (Resources.maxConcurrentRuns st'))%Z /\
  Resources.maxConcurrentRuns st' = Resources.maxConcurrentRuns st /\
  (Z.of_nat (Resources.activeOfType Resources.agent (Resources.releaseResource id st))
     <= Z.max 0 (Resources.maxConcurrentRuns st))%Z /\
  (type <> Resources.agent -> sufficient = true ->
   fst (Resources.acquireResource type id reqs now sufficient st) = true).
Proof.
  intros Hinv. cbn zeta.
  split; [|split; [|split]].
  - unfold Resources.acquireResource.
    destruct sufficient; cbn [negb snd]; [|done].
    destruct (Resources.ResourceType_eqb type Resources.agent) eqn:Htype; cbn [andb].
    + destruct (Z.leb_spec (Resources.maxConcurrentRuns st)
                  (Z.of_nat (Resources.activeOfType type st))) as [Hfull|Hroom];
        cbn [snd]; [done|].
      pose proof (activeOfType_insert type Resources.agent id
                    (Resources.mkUsage type reqs now) st) as Hle.
      cbn [Resources.res_type] in Hle. rewrite Htype in Hle.
      cbn [Resources.maxConcurrentRuns].
      assert (type = Resources.agent) as -> by (by destruct type). lia.
    + cbn [snd].
      pose proof (activeOfType_insert type Resources.agent id
                    (Resources.mkUsage type reqs now) st) as Hle.
      cbn [Resources.res_type] in Hle. rewrite Htype in Hle.
      cbn [Resources.maxConcurrentRuns]. lia.
  - unfold Resources.acquireResource.
    destruct sufficient; cbn [negb snd]; [|done].
    by destruct (_ && _).
  - pose proof (activeOfType_delete Resources.agent id st). lia.
  - intros Htype ->. unfold Resources.acquireResource. cbn [negb].
    by destruct type.
Qed.

Lemma X28_agent_limit_kept_witness :
  let st := snd (Resources.acquireResource Resources.agent "run-1" tt 0 true
                   (Resources.init 1)) in
  fst (Resources.acquireResource Resources.agent "run-2" tt 1 true st) = false /\
  fst (Resources.acquireResource Resources.browser "tab-1" tt 1 true st) = true.
Proof.
  intros st. split; [reflexivity|].
  apply (X28_agent_limit_kept Resources.browser "tab-1" tt 1 true st);
    [vm_compute; discriminate|discriminate|reflexivity].
Defined.
